(** * Heat-equation solver: parallel I/O and checkpoint/restart (io.c)

    A shallow embedding of [write_field], [read_field], [write_restart] and
    [read_restart] of parallel-io/heat-restart/c/solution/io.c, and the
    properties of the checkpoint layout, the restart round trip, the initial
    load and the gather that follow from the code. *)

From Stdlib Require Import ZArith Lia String Ascii.
From stdpp Require Import list.

Local Open Scope Z_scope.

(** ** C integer types

    [int] is 32 bits wide and [size_t] 64 bits (LP64).  A value stored in an
    [int] is kept modulo 2^32 in the signed range; [size_t] arithmetic is
    modulo 2^64.  Signed overflow of [int] products is given the
    two's-complement result. *)

Definition INT_MIN : Z := - 2 ^ 31.
Definition INT_MAX : Z := 2 ^ 31 - 1.

Definition to_int (z : Z) : Z := (z + 2 ^ 31) mod 2 ^ 32 - 2 ^ 31.
Definition to_size_t (z : Z) : Z := z mod 2 ^ 64.

Definition int_add (a b : Z) : Z := to_int (a + b).
Definition int_mul (a b : Z) : Z := to_int (a * b).
Definition size_t_add (a b : Z) : Z := to_size_t (a + b).
Definition size_t_mul (a b : Z) : Z := to_size_t (a * b).

Definition sizeof_int : Z := 4.
Definition sizeof_double : Z := 8.

Definition is_int (z : Z) : Prop := INT_MIN <= z <= INT_MAX.

(** ** Checkpoint addressing

    io.c:157-162, [write_restart]:
<<
    size = (temperature->nx + 2) * (temperature->ny + 2);
    disp = 3 * sizeof(int);
    disp += parallel->rank * (temperature->ny + 2) *
            (temperature->nx + 2) * sizeof(double);
>>
    [3 * sizeof(int)] is a [size_t] stored into the [int] [disp].  In the
    compound assignment the product of the three [int]s is formed in [int],
    converted to [size_t] for the multiplication by [sizeof(double)], added to
    [disp] in [size_t], and the sum is stored back into the [int]. *)

Definition restart_size (nx ny : Z) : Z :=
  int_mul (int_add nx 2) (int_add ny 2).

Definition write_restart_disp (rank nx ny : Z) : Z :=
  let disp := to_int (size_t_mul 3 sizeof_int) in
  let cells := int_mul (int_mul rank (int_add ny 2)) (int_add nx 2) in
  to_int (size_t_add (to_size_t disp)
                     (size_t_mul (to_size_t cells) sizeof_double)).

(** io.c:195-200, [read_restart]: the same statements, on the dimensions set
    from the header. *)

Definition read_restart_disp (rank nx ny : Z) : Z :=
  let disp := to_int (size_t_mul 3 sizeof_int) in
  let cells := int_mul (int_mul rank (int_add ny 2)) (int_add nx 2) in
  to_int (size_t_add (to_size_t disp)
                     (size_t_mul (to_size_t cells) sizeof_double)).

(** The layout the offsets are meant to realise: a header of three [int]s and
    one block of [(nx+2)*(ny+2)] doubles per rank. *)

Definition header_bytes : Z := 3 * sizeof_int.
Definition tile_bytes (nx ny : Z) : Z := (nx + 2) * (ny + 2) * sizeof_double.
Definition layout_offset (rank nx ny : Z) : Z :=
  3 * sizeof_int + rank * (nx + 2) * (ny + 2) * sizeof_double.

(** The bytes [write_restart] writes for a rank: [size] doubles from [disp]
    on, as the half-open range [(first, past_the_end)]. *)
Definition write_restart_range (rank nx ny : Z) : Z * Z :=
  let disp := write_restart_disp rank nx ny in
  (disp, disp + restart_size nx ny * sizeof_double).

Definition disjoint_ranges (a b : Z * Z) : Prop :=
  snd a <= fst b \/ snd b <= fst a.

(** ** Bytes and files

    A byte is a [Z] in [0, 256).  Values are stored least significant byte
    first (the native order of the little-endian hosts the solver runs on).
    A [double] is carried as its 64-bit pattern, so that equality of cells is
    equality bit for bit. *)

Fixpoint encode_le (w : nat) (z : Z) : list Z :=
  match w with
  | O => []
  | S w' => z mod 256 :: encode_le w' (z / 256)
  end.

Fixpoint decode_le (bs : list Z) : Z :=
  match bs with
  | [] => 0
  | b :: bs' => b + 256 * decode_le bs'
  end.

Definition is_double (d : Z) : Prop := 0 <= d < 2 ^ 64.

Definition encode_int (i : Z) : list Z := encode_le 4 i.
Definition decode_int (bs : list Z) : Z := to_int (decode_le bs).
Definition encode_double (d : Z) : list Z := encode_le 8 d.
Definition decode_double (bs : list Z) : Z := decode_le bs.

Definition encode_doubles (cells : list Z) : list Z :=
  concat (map encode_double cells).

Fixpoint decode_doubles (n : nat) (bs : list Z) : list Z :=
  match n with
  | O => []
  | S n' => decode_double (take 8 bs) :: decode_doubles n' (drop 8 bs)
  end.

(** The bytes of a file from offset [off], at most [n] of them. *)
Definition segment (f : list Z) (off n : nat) : list Z := take n (drop off f).

(** Writing [bs] at byte offset [off]: the file grows when the write ends
    past its end (a gap before [off] reads as zero bytes); bytes after the
    written range stay.  A negative offset is an erroneous argument: the call
    fails and writes nothing. *)
Definition pwrite (f : list Z) (off : Z) (bs : list Z) : list Z :=
  if off <? 0 then f
  else
    let o := Z.to_nat off in
    take o f ++ replicate (o - length f)%nat 0 ++ bs ++ drop (o + length bs)%nat f.

(** ** The MPI file interface, as far as io.c uses it

    The checkpoint is one named file: [None] when it does not exist, else its
    bytes.  An open file is its bytes together with the individual file
    pointer of the calling process. *)

Record MPI_File : Type := { contents : list Z; pointer : Z }.

(** [MPI_File_open] with [MPI_MODE_CREATE | MPI_MODE_WRONLY]: the file is
    created, empty, when it does not exist; an existing file is opened as it
    is.  MPI has no truncating open mode. *)
Definition MPI_File_open_create_wronly (fs : option (list Z)) : MPI_File :=
  {| contents := default [] fs; pointer := 0 |}.

(** [MPI_File_open] with [MPI_MODE_RDONLY]: fails on a missing file. *)
Definition MPI_File_open_rdonly (fs : option (list Z)) : option MPI_File :=
  match fs with
  | Some f => Some {| contents := f; pointer := 0 |}
  | None => None
  end.

(** [MPI_File_write(fp, &v, 1, MPI_INT, ...)]: at the individual pointer,
    which advances. *)
Definition MPI_File_write_int (fp : MPI_File) (v : Z) : MPI_File :=
  {| contents := pwrite (contents fp) (pointer fp) (encode_int v);
     pointer := pointer fp + sizeof_int |}.

(** [MPI_File_write_at_all(fp, disp, buf, count, MPI_DOUBLE, ...)]: [count]
    doubles from the start of [buf] go to byte offset [disp].  A negative
    count is erroneous and writes nothing. *)
Definition MPI_File_write_at_all (fp : MPI_File) (disp : Z) (buf : list Z)
    (count : Z) : MPI_File :=
  if count <? 0 then fp
  else {| contents := pwrite (contents fp) disp
                        (encode_doubles (take (Z.to_nat count) buf));
          pointer := pointer fp |}.

(** [MPI_File_read_all(fp, &v, 1, MPI_INT, ...)]: [None] when fewer than four
    bytes remain at the pointer (the variable is then not assigned). *)
Definition MPI_File_read_all_int (fp : MPI_File) : option Z * MPI_File :=
  let bs := segment (contents fp) (Z.to_nat (pointer fp)) 4 in
  if (length bs =? 4)%nat
  then (Some (decode_int bs),
        {| contents := contents fp; pointer := pointer fp + sizeof_int |})
  else (None, fp).

(** [MPI_File_read_at_all(fp, disp, buf, count, MPI_DOUBLE, ...)]: as many
    whole doubles as the file holds from [disp], at most [count], replace the
    start of [buf]; the rest of [buf] keeps its content.  Negative arguments
    are erroneous and read nothing. *)
Definition MPI_File_read_at_all (fp : MPI_File) (disp : Z) (buf : list Z)
    (count : Z) : list Z :=
  if (disp <? 0) || (count <? 0) then buf
  else
    let avail := drop (Z.to_nat disp) (contents fp) in
    let k := Nat.min (Z.to_nat count) (length avail / 8) in
    list_inserts 0 (decode_doubles k avail) buf.

(** ** Fields and the parallel context

    heat.h is not among the sources; the members below are the ones io.c
    reads and writes.  The cells of [data] are those of the contiguous block
    behind [data[0]], row by row, [ny + 2] to a row. *)

Record field : Type :=
  { nx : Z; ny : Z; nx_full : Z; ny_full : Z; data : list Z }.

Record parallel_data : Type := { size : Z; rank : Z }.

(** How a run of one of the functions ends. *)
Inductive outcome (A : Type) : Type :=
| Done (a : A)               (* the function returns *)
| Aborted (errorcode : Z)    (* MPI_Abort(MPI_COMM_WORLD, errorcode) *)
| Undefined.                 (* the C program has no defined behaviour *)

Arguments Done {A} a.
Arguments Aborted {A} errorcode.
Arguments Undefined {A}.

(** ** Arrays and loops

    [cell w i j] is the position of [a[i][j]] in the contiguous block of an
    array whose rows are [w] cells wide. *)

Definition cell (w i j : Z) : nat := Z.to_nat (i * w + j).

Definition get2 (w : Z) (a : list Z) (i j : Z) : Z := a !!! cell w i j.
Definition set2 (w : Z) (a : list Z) (i j : Z) (v : Z) : list Z :=
  <[cell w i j := v]> a.

(** [memcpy(dst + dst_off, src + src_off, n * sizeof(double))], offsets and
    length counted in cells, for [n >= 0] and a copy that stays within both
    blocks.  (A negative [n] would reach [memcpy] as a length near 2^64,
    which no block has; the properties below have [n >= 0].) *)
Definition memcpy (dst : list Z) (dst_off : nat) (src : list Z) (src_off : nat)
    (n : Z) : list Z :=
  list_inserts dst_off (take (Z.to_nat n) (drop src_off src)) dst.

(** [for (i = lo; i < hi; i++) st = body(st, i);] *)
Definition for_loop {St : Type} (lo hi : Z) (body : St -> Z -> St) (st : St) : St :=
  foldl body st (seqZ lo (hi - lo)).

(** ** Scanning the header of the initial-condition file

    [fscanf(fp, "# %d %d \n", &nx, &ny)]: an ordinary character of the format
    must be the next character of the input; white space in the format skips
    any run of white-space characters of the input, line breaks included;
    [%d] skips white space, then reads an optionally signed decimal number.
    The value returned is the number of variables assigned, or [EOF] when the
    input ends before the first conversion.  The number read is converted
    as [strtol] does, which keeps a number that a [long] cannot hold at the
    nearest bound of [long] (the C standard leaves that case open; this is
    what the GNU C library does), and is then stored in the [int], modulo
    2^32. *)

Definition LONG_MIN : Z := - 2 ^ 63.
Definition LONG_MAX : Z := 2 ^ 63 - 1.

Definition strtol_value (z : Z) : Z := Z.max LONG_MIN (Z.min LONG_MAX z).

Definition isspace (c : ascii) : bool :=
  let n := nat_of_ascii c in
  ((n =? 32) || ((9 <=? n) && (n <=? 13)))%nat.

Definition isdigit (c : ascii) : bool :=
  let n := nat_of_ascii c in ((48 <=? n) && (n <=? 57))%nat.

Definition digit_value (c : ascii) : Z := Z.of_nat (nat_of_ascii c) - 48.

Fixpoint skip_space (s : string) : string :=
  match s with
  | String c s' => if isspace c then skip_space s' else s
  | EmptyString => s
  end.

Fixpoint scan_digits (acc : Z) (s : string) : Z * string :=
  match s with
  | String c s' =>
    if isdigit c then scan_digits (10 * acc + digit_value c) s' else (acc, s)
  | EmptyString => (acc, s)
  end.

Inductive conversion : Type :=
| Converted (v : Z) (rest : string)
| Matching_failure
| Input_failure.

Definition scan_signed (negative : bool) (s : string) : conversion :=
  match s with
  | String d _ =>
    if isdigit d then
      let '(v, rest) := scan_digits 0 s in
      Converted (to_int (strtol_value (if negative then - v else v))) rest
    else Matching_failure
  | EmptyString => Matching_failure
  end.

(** The conversion [%d]. *)
Definition scan_d (s : string) : conversion :=
  match skip_space s with
  | EmptyString => Input_failure
  | String c s' =>
    if Ascii.eqb c "-" then scan_signed true s'
    else if Ascii.eqb c "+" then scan_signed false s'
    else scan_signed false (String c s')
  end.

Definition EOF : Z := -1.

Record header_scan : Type :=
  { count : Z; nx_read : option Z; ny_read : option Z; rest : string }.

Definition fscanf_header (s : string) : header_scan :=
  match s with
  | EmptyString =>
    {| count := EOF; nx_read := None; ny_read := None; rest := s |}
  | String c s1 =>
    if negb (Ascii.eqb c "#") then
      {| count := 0; nx_read := None; ny_read := None; rest := s |}
    else
      match scan_d (skip_space s1) with
      | Input_failure =>
        {| count := EOF; nx_read := None; ny_read := None; rest := EmptyString |}
      | Matching_failure =>
        {| count := 0; nx_read := None; ny_read := None; rest := skip_space s1 |}
      | Converted vx s2 =>
        match scan_d (skip_space s2) with
        | Converted vy s3 =>
          {| count := 2; nx_read := Some vx; ny_read := Some vy;
             rest := skip_space s3 |}
        | _ =>
          {| count := 1; nx_read := Some vx; ny_read := None;
             rest := skip_space s2 |}
        end
      end
  end.

(** ** Message passing, as far as io.c uses it *)

(** The collective calls of [read_field], in the order they are issued. *)
Inductive collective : Type :=
| Scatter_call (sendcount : Z).

(** [MPI_Scatter(sendbuf, n, MPI_DOUBLE, recvbuf, n, MPI_DOUBLE, 0, ...)]
    for a count [n >= 0]: the process of rank [r] receives cells
    [r*n .. (r+1)*n - 1] of the send buffer of rank 0.  (A negative count is
    an error of the call; nothing is transferred here in that case, and the
    properties below that go through the scatter have positive
    dimensions.) *)
Definition MPI_Scatter (root_sendbuf : list Z) (n : Z) (recvbuf : list Z)
    (my_rank : Z) : list Z :=
  if n <? 0 then recvbuf
  else list_inserts 0
         (take (Z.to_nat n) (drop (Z.to_nat (my_rank * n)) root_sendbuf))
         recvbuf.

(** [MPI_Recv(buf, n, MPI_DOUBLE, p, 22, ...)] of the message [msg] sent by
    [p]: the message replaces the start of [buf]; a message longer than [n]
    is an error ([MPI_ERR_TRUNCATE]), which is fatal under the default error
    handler of the communicator. *)
Definition MPI_ERR_TRUNCATE : Z := 15.

Definition MPI_Recv (buf : list Z) (n : Z) (msg : list Z) : option (list Z) :=
  if (length msg <=? Z.to_nat n)%nat then Some (list_inserts 0 msg buf)
  else None.

(** The arguments with which [write_field] calls the image encoder. *)
Record save_png_call : Type :=
  { png_data : list Z; png_height : Z; png_width : Z }.

Section Collaborators.

(** Content of freshly [malloc]ed memory, cell by cell: nothing is assumed
    about it. *)
Variable junk : nat -> Z.

(** Modelled from the spec: [malloc_2d], the allocator of a contiguous
    [h] by [w] block of doubles addressed through row pointers ("raw
    row-major buffers with manual pointer offsets"). *)
Definition malloc_2d (h w : Z) : list Z :=
  map junk (seq 0 (Z.to_nat (h * w))).

(** Modelled from the spec: [parallel_setup], the decomposition descriptor;
    it records the size of the process group and the rank of the caller. *)
Definition parallel_setup (world_size my_rank : Z) (rows cols : Z)
  : parallel_data :=
  {| size := world_size; rank := my_rank |}.

(** Modelled from the spec: [set_field_dimensions]; rows are split in equal
    blocks over the processes, columns are not split.  What is done with
    rows that are not a multiple of the number of processes is left open
    there; the quotient below is the block of an even split. *)
Definition set_field_dimensions (temperature : field) (rows cols : Z)
    (parallel : parallel_data) : field :=
  {| nx := Z.quot rows (size parallel); ny := cols;
     nx_full := rows; ny_full := cols; data := data temperature |}.

(** Modelled from the spec: [allocate_field], the tile allocator
    ("allocate(local_rows, local_cols) -> padded tile"). *)
Definition allocate_field (temperature : field) : field :=
  {| nx := nx temperature; ny := ny temperature;
     nx_full := nx_full temperature; ny_full := ny_full temperature;
     data := malloc_2d (nx temperature + 2) (ny temperature + 2) |}.

(** Modelled from the spec: [copy_field], which duplicates the loaded tile
    into the buffer of the next time step. *)
Definition copy_field (temperature1 temperature2 : field) : field :=
  {| nx := nx temperature2; ny := ny temperature2;
     nx_full := nx_full temperature2; ny_full := ny_full temperature2;
     data := data temperature1 |}.

(** ** [write_restart] (io.c:141-170), as run by one process *)

Definition write_restart (temperature : field) (parallel : parallel_data)
    (iter : Z) (fs : option (list Z)) : option (list Z) :=
  let fp := MPI_File_open_create_wronly fs in
  let fp :=
    if rank parallel =? 0 then
      let fp := MPI_File_write_int fp (nx_full temperature) in
      let fp := MPI_File_write_int fp (ny_full temperature) in
      MPI_File_write_int fp iter
    else fp in
  let size := restart_size (nx temperature) (ny temperature) in
  let disp :=
    write_restart_disp (rank parallel) (nx temperature) (ny temperature) in
  let fp := MPI_File_write_at_all fp disp (data temperature) size in
  Some (contents fp).

(** The collective write of a group of [P] processes: every rank runs
    [write_restart] on its own tile; [sched] is the order in which their
    accesses reach the file. *)
Definition write_restart_all (sched : list Z) (P : Z) (tiles : Z -> field)
    (iter : Z) (fs : option (list Z)) : option (list Z) :=
  foldl (fun fs r => write_restart (tiles r) {| size := P; rank := r |} iter fs)
        fs sched.

(** ** [read_restart] (io.c:174-208), as run by one process

    [temperature] and [parallel] are filled in by the function; it returns
    them with the value [*iter] holds at the end, [iter] being the value it
    holds at the call.  The results of the three header reads are not looked
    at: a read that delivers nothing leaves its variable as it was.  [rows]
    and [cols] are locals without an initial value, which the function goes
    on to use; [*iter] keeps the value of the caller. *)

Definition read_restart (temperature : field) (world_size my_rank : Z)
    (iter : Z) (fs : option (list Z)) : outcome (field * parallel_data * Z) :=
  match MPI_File_open_rdonly fs with
  | None => Undefined
  | Some fp =>
    let '(rows, fp) := MPI_File_read_all_int fp in
    let '(cols, fp) := MPI_File_read_all_int fp in
    let '(iter_read, fp) := MPI_File_read_all_int fp in
    let iter := default iter iter_read in
    match rows, cols with
    | Some rows, Some cols =>
      let parallel := parallel_setup world_size my_rank rows cols in
      let temperature := set_field_dimensions temperature rows cols parallel in
      let temperature := allocate_field temperature in
      let size := restart_size (nx temperature) (ny temperature) in
      let disp :=
        read_restart_disp (rank parallel) (nx temperature) (ny temperature) in
      let cells := MPI_File_read_at_all fp disp (data temperature) size in
      Done ({| nx := nx temperature; ny := ny temperature;
               nx_full := nx_full temperature; ny_full := ny_full temperature;
               data := cells |}, parallel, iter)
    | _, _ => Undefined
    end
  end.

(** ** [read_field] (io.c:65-137), as run by one process

    [file] is the text of the initial-condition file, [None] when it cannot
    be opened. *)

(** The conversion [%lf] of the C library: the bit pattern of the double
    read, if any, and the rest of the input. *)
Variable scan_lf : string -> option Z * string.

Definition fopen (file : option string) : option string := file.

(** io.c:100-104, the loop of rank 0 over
    [fscanf(fp, "%lf", &full_data[i][j])]; the value returned is not
    looked at. *)
Definition read_values (rows cols : Z) (fp : string) (full_data : list Z)
  : list Z * string :=
  for_loop 0 rows (fun st i =>
    for_loop 0 cols (fun '(full_data, fp) j =>
      match scan_lf fp with
      | (Some v, fp') => (set2 cols full_data i j v, fp')
      | (None, fp') => (full_data, fp')
      end) st) (full_data, fp).

(** io.c:117-130: the received block goes to the interior of the padded
    tile, then the boundary values are set, columns before rows. *)
Definition fill_tile (nx_local cols : Z) (inner_data tile : list Z) : list Z :=
  let w := cols + 2 in
  let tile :=
    for_loop 0 nx_local (fun tile i =>
      memcpy tile (cell w (i + 1) 1) inner_data (cell cols i 0) cols) tile in
  let tile :=
    for_loop 1 (int_add nx_local 1) (fun tile i =>
      let tile := set2 w tile i 0 (get2 w tile i 1) in
      set2 w tile i (int_add cols 1) (get2 w tile i cols)) tile in
  for_loop 0 (int_add cols 2) (fun tile j =>
    let tile := set2 w tile 0 j (get2 w tile 1 j) in
    set2 w tile (int_add nx_local 1) j (get2 w tile nx_local j)) tile.

Definition read_field (temperature1 temperature2 : field)
    (world_size my_rank : Z) (file : option string)
  : list collective * outcome (field * field * parallel_data) :=
  match fopen file with
  | None => ([], Undefined)
  | Some fp =>
    let h := fscanf_header fp in
    if count h <? 2 then ([], Aborted (-1))
    else
      match nx_read h, ny_read h with
      | Some rows, Some cols =>
        let parallel := parallel_setup world_size my_rank rows cols in
        let temperature1 := set_field_dimensions temperature1 rows cols parallel in
        let temperature2 := set_field_dimensions temperature2 rows cols parallel in
        let data1 := malloc_2d (int_add (nx temperature1) 2)
                               (int_add (ny temperature1) 2) in
        let data2 := malloc_2d (int_add (nx temperature2) 2)
                               (int_add (ny temperature2) 2) in
        let inner_data := malloc_2d (nx temperature1) (ny temperature1) in
        (* the buffer rank 0 passes to the scatter *)
        let full_data := fst (read_values rows cols (rest h) (malloc_2d rows cols)) in
        let nx_local := nx temperature1 in
        let sendcount := int_mul nx_local cols in
        let inner_data := MPI_Scatter full_data sendcount inner_data my_rank in
        let data1 := fill_tile nx_local cols inner_data data1 in
        let temperature1 :=
          {| nx := nx temperature1; ny := ny temperature1;
             nx_full := nx_full temperature1; ny_full := ny_full temperature1;
             data := data1 |} in
        let temperature2 :=
          {| nx := nx temperature2; ny := ny temperature2;
             nx_full := nx_full temperature2; ny_full := ny_full temperature2;
             data := data2 |} in
        let temperature2 := copy_field temperature1 temperature2 in
        ([Scatter_call sendcount], Done (temperature1, temperature2, parallel))
      | _, _ => ([], Undefined)
      end
  end.

(** ** [write_field] (io.c:14-60)

    [tiles p] is the tile of rank [p]. *)

(** io.c:50-55: the message of a rank other than 0. *)
Definition write_field_message (temperature : field) : list Z :=
  let tmp_data := malloc_2d (nx temperature) (ny temperature) in
  let tmp_data :=
    for_loop 0 (nx temperature) (fun tmp_data i =>
      memcpy tmp_data (cell (ny temperature) i 0)
             (data temperature) (cell (ny temperature + 2) (i + 1) 1)
             (ny temperature)) tmp_data in
  take (Z.to_nat (int_mul (nx temperature) (ny temperature))) tmp_data.

(** io.c:26-48: rank 0 assembles the global buffer and hands it to
    [save_png]. *)
Definition write_field (tiles : Z -> field) (parallel : parallel_data)
  : outcome (option save_png_call) :=
  let temperature := tiles (rank parallel) in
  let height := int_mul (nx temperature) (size parallel) in
  let width := ny temperature in
  let tmp_data := malloc_2d (nx temperature) (ny temperature) in
  if rank parallel =? 0 then
    let full_data := malloc_2d height width in
    let full_data :=
      for_loop 0 (nx temperature) (fun full_data i =>
        memcpy full_data (cell width i 0)
               (data temperature) (cell (ny temperature + 2) (i + 1) 1)
               (ny temperature)) full_data in
    let received :=
      for_loop 1 (size parallel) (fun st p =>
        match st with
        | Some (full_data, tmp_data) =>
          match MPI_Recv tmp_data (int_mul (nx temperature) (ny temperature))
                         (write_field_message (tiles p)) with
          | Some tmp_data =>
            Some (memcpy full_data (cell width (int_mul p (nx temperature)) 0)
                         tmp_data 0
                         (int_mul (nx temperature) (ny temperature)),
                  tmp_data)
          | None => None
          end
        | None => None
        end) (Some (full_data, tmp_data)) in
    match received with
    | Some (full_data, _) =>
      Done (Some {| png_data := full_data; png_height := height;
                    png_width := width |})
    | None => Aborted MPI_ERR_TRUNCATE
    end
  else Done None.

End Collaborators.

(** ** Vocabulary of the statements *)

(** A tile of a grid of [rows] by [cols] cells split evenly over [P]
    processes, as [set_field_dimensions] and the allocator leave it. *)
Definition tile_ok (P rows cols : Z) (t : field) : Prop :=
  nx_full t = rows /\ ny_full t = cols /\
  nx t = Z.quot rows P /\ ny t = cols /\
  length (data t) = Z.to_nat ((nx t + 2) * (ny t + 2)) /\
  Forall is_double (data t).

(** The bytes of a checkpoint header. *)
Definition header_image (rows cols iter : Z) : list Z :=
  encode_int rows ++ encode_int cols ++ encode_int iter.

(** The bytes of a whole checkpoint of [P] tiles. *)
Definition checkpoint_image (P : Z) (tiles : Z -> field) (iter : Z) : list Z :=
  header_image (nx_full (tiles 0)) (ny_full (tiles 0)) iter ++
  concat (map (fun q => encode_doubles (data (tiles q))) (seqZ 0 P)).

(** The cells of a checkpoint of [P] tiles, in the order the file holds
    them. *)
Definition checkpoint_cells (P : Z) (tiles : Z -> field) : list Z :=
  concat (map (fun q => data (tiles q)) (seqZ 0 P)).

(** The state of the file [f], begun as [old], once the processes of [done]
    have written: their blocks are in place, the header is if rank 0 is among
    them, and nothing past the last block has changed. *)
Definition checkpoint_written (P rows cols iter : Z) (tiles : Z -> field)
    (done : list Z) (old f : list Z) : Prop :=
  let T := tile_bytes (Z.quot rows P) cols in
  (forall q, q ∈ done ->
     segment f (Z.to_nat (header_bytes + q * T)) (Z.to_nat T) =
       encode_doubles (data (tiles q))) /\
  (0 ∈ done -> take 12 f = header_image rows cols iter) /\
  drop (Z.to_nat (header_bytes + P * T)) f =
    drop (Z.to_nat (header_bytes + P * T)) old.

(** Tiles of [nxl] by [nyl] interior cells on every rank below [P]. *)
Definition uniform_tiles_of (P nxl nyl : Z) (tiles : Z -> field) : Prop :=
  forall p, 0 <= p < P ->
    nx (tiles p) = nxl /\ ny (tiles p) = nyl /\
    length (data (tiles p)) = Z.to_nat ((nxl + 2) * (nyl + 2)).

(** [n] successive conversions [%lf] on a text: what each of them yields,
    and the text that is left. *)
Fixpoint scan_values (scan_lf : string -> option Z * string) (n : nat)
    (fp : string) : list (option Z) * string :=
  match n with
  | O => ([], fp)
  | S n' =>
    let '(v, fp1) := scan_lf fp in
    let '(vs, fp2) := scan_values scan_lf n' fp1 in
    (v :: vs, fp2)
  end.

(** The values of [vs] that are there stored one after the other from
    position [start] of [buf]. *)
Fixpoint store_values (start : nat) (vs : list (option Z)) (buf : list Z)
    : list Z :=
  match vs with
  | [] => buf
  | v :: vs' =>
    store_values (S start) vs'
      (match v with Some x => <[start := x]> buf | None => buf end)
  end.

(** The tile [read_field] leaves to the process of rank [p]. *)
Definition loaded_tile (junk : nat -> Z) (scan_lf : string -> option Z * string)
    (P : Z) (text : string) (p : Z) : field :=
  match snd (read_field junk scan_lf
               {| nx := 0; ny := 0; nx_full := 0; ny_full := 0; data := [] |}
               {| nx := 0; ny := 0; nx_full := 0; ny_full := 0; data := [] |}
               P p (Some text)) with
  | Done (t, _, _) => t
  | _ => {| nx := 0; ny := 0; nx_full := 0; ny_full := 0; data := [] |}
  end.

(** The three stages of [fill_tile]: the block copied to the interior, the
    ghost columns set, the ghost rows set. *)
Definition fill_copied (n cols : Z) (inner tile0 : list Z) : list Z :=
  for_loop 0 n (fun tile i =>
    memcpy tile (cell (cols + 2) (i + 1) 1) inner (cell cols i 0) cols) tile0.

Definition fill_with_columns (n cols : Z) (inner tile0 : list Z) : list Z :=
  for_loop 1 (n + 1) (fun tile i =>
    let tile := set2 (cols + 2) tile i 0 (get2 (cols + 2) tile i 1) in
    set2 (cols + 2) tile i (cols + 1) (get2 (cols + 2) tile i cols))
    (fill_copied n cols inner tile0).

Definition fill_with_rows (n cols : Z) (inner tile0 : list Z) : list Z :=
  for_loop 0 (cols + 2) (fun tile j =>
    let tile := set2 (cols + 2) tile 0 j (get2 (cols + 2) tile 1 j) in
    set2 (cols + 2) tile (n + 1) j (get2 (cols + 2) tile n j))
    (fill_with_columns n cols inner tile0).

(** ** Sample inputs *)

(** A tile of one interior cell (3 by 3 with the ghost layer) of a 2 by 1 grid
    on two processes; the cells of rank [r] are [100*r .. 100*r + 8]. *)
Definition small_tile (r : Z) : field :=
  {| nx := 1; ny := 1; nx_full := 2; ny_full := 1;
     data := map (fun k => 100 * r + k) (seqZ 0 9) |}.

(** A tile of 32766 by 16382 interior cells of a 65532 by 16382 grid on two
    processes, every cell holding [v]: with the ghost layer it has 2^29
    cells, 2^32 bytes. *)
Definition wide_tile (v : Z) : field :=
  {| nx := 32766; ny := 16382; nx_full := 65532; ny_full := 16382;
     data := replicate (Z.to_nat (32768 * 16384)) v |}.

(** The only tile of a 1 by 1 grid on one process. *)
Definition single_tile (r : Z) : field :=
  {| nx := 1; ny := 1; nx_full := 1; ny_full := 1; data := seqZ 0 9 |}.

(** A tile of 16382 by 16382 interior cells on the second of two
    processes: with the ghost layer it takes 2^31 bytes. *)
Definition square_tile : field :=
  {| nx := 16382; ny := 16382; nx_full := 32764; ny_full := 16382;
     data := replicate (Z.to_nat (16384 * 16384)) 0 |}.

Definition no_junk (i : nat) : Z := 0.
Definition other_junk (i : nat) : Z := 777 + Z.of_nat i.

(** Tiles of unequal size: rank 0 has one interior cell, rank 1 has two. *)
Definition uneven_tile (r : Z) : field :=
  if r =? 0
  then {| nx := 1; ny := 1; nx_full := 3; ny_full := 1; data := seqZ 0 9 |}
  else {| nx := 2; ny := 1; nx_full := 3; ny_full := 1; data := seqZ 100 12 |}.

(** Tiles of unequal size, the smaller one on rank 1: rank 0 has two
    interior cells, rank 1 has one. *)
Definition shrinking_tile (r : Z) : field :=
  if r =? 0
  then {| nx := 2; ny := 1; nx_full := 3; ny_full := 1; data := seqZ 0 12 |}
  else {| nx := 1; ny := 1; nx_full := 3; ny_full := 1; data := seqZ 100 9 |}.

(** [gather_tile] with other values in the ghost cells. *)
Definition gather_tile_other_ghosts (r : Z) : field :=
  {| nx := 2; ny := 2; nx_full := 4; ny_full := 2;
     data := map (fun k => if bool_decide (k ∈ [5; 6; 9; 10])
                           then 100 * r + k else -1) (seqZ 0 16) |}.

(** A stand-in for the conversion [%lf] on sample texts: it accepts an
    unsigned decimal number with an optional fraction and yields the integer
    part as the pattern of the cell. *)
Definition sample_scan_lf (s : string) : option Z * string :=
  match skip_space s with
  | EmptyString => (None, EmptyString)
  | String c s' =>
    if isdigit c || Ascii.eqb c "." then
      let '(v, s1) := scan_digits 0 (String c s') in
      match s1 with
      | String d s2 =>
        if Ascii.eqb d "." then (Some v, snd (scan_digits 0 s2))
        else (Some v, s1)
      | EmptyString => (Some v, s1)
      end
    else (None, String c s')
  end.

(** [sample_scan_lf] with the pattern kept to 64 bits. *)
Definition sample_scan_double (s : string) : option Z * string :=
  match sample_scan_lf s with
  | (Some v, s') => (Some (v mod 2 ^ 64), s')
  | (None, s') => (None, s')
  end.

Definition newline : string := String "010"%char EmptyString.

(** A header line with one integer only, and nothing after it. *)
Definition short_header_text : string := "# 3" ++ newline.

(** The same header line, followed by a line of three values. *)
Definition short_header_then_values : string :=
  "# 3" ++ newline ++ "1.0 2.0 3.0" ++ newline.

(** A grid of 4 rows and 3 columns. *)
Definition grid_4_3_text : string :=
  "# 4 3" ++ newline ++ "1 2 3" ++ newline ++ "4 5 6" ++ newline
    ++ "7 8 9" ++ newline ++ "10 11 12" ++ newline.

Definition blank_field : field :=
  {| nx := 0; ny := 0; nx_full := 0; ny_full := 0; data := [] |}.

(** The tiles of a 4 by 2 grid on two processes; rank [r] holds the cells
    [100*r .. 100*r + 15]. *)
Definition gather_tile (r : Z) : field :=
  {| nx := 2; ny := 2; nx_full := 4; ny_full := 2;
     data := map (fun k => 100 * r + k) (seqZ 0 16) |}.

(** * Properties *)

(** ** Arithmetic modulo 2^32 *)

Lemma to_int_range z : is_int (to_int z).
Proof.
  unfold is_int, to_int, INT_MIN, INT_MAX.
  pose proof (Z.mod_pos_bound (z + 2 ^ 31) (2 ^ 32)). lia.
Qed.

Lemma to_int_id z : is_int z -> to_int z = z.
Proof.
  unfold is_int, to_int, INT_MIN, INT_MAX. intros H.
  rewrite Z.mod_small; lia.
Qed.

Lemma to_int_fixed z : to_int z = z -> is_int z.
Proof. intros <-. apply to_int_range. Qed.

Lemma to_int_mod z : to_int z mod 2 ^ 32 = z mod 2 ^ 32.
Proof.
  unfold to_int.
  rewrite Zminus_mod_idemp_l.
  f_equal. lia.
Qed.

Lemma to_size_t_mod z : to_size_t z mod 2 ^ 32 = z mod 2 ^ 32.
Proof.
  unfold to_size_t.
  change (2 ^ 64) with (2 ^ 32 * 2 ^ 32).
  rewrite Z.rem_mul_r by lia.
  rewrite Z.add_mod by lia.
  rewrite Z.mul_comm, Z.mod_mul by lia.
  rewrite Z.add_0_r, !Z.mod_mod by lia. reflexivity.
Qed.

Lemma to_int_congr a b : a mod 2 ^ 32 = b mod 2 ^ 32 -> to_int a = to_int b.
Proof.
  intros H. unfold to_int.
  rewrite (Z.add_mod a), (Z.add_mod b), H by lia. reflexivity.
Qed.

Lemma to_int_wrap z : to_int z = z - 2 ^ 32 * ((z + 2 ^ 31) / 2 ^ 32).
Proof. unfold to_int. rewrite Z.mod_eq by lia. lia. Qed.

Lemma add_congr a a' b b' :
  a mod 2 ^ 32 = a' mod 2 ^ 32 -> b mod 2 ^ 32 = b' mod 2 ^ 32 ->
  (a + b) mod 2 ^ 32 = (a' + b') mod 2 ^ 32.
Proof. intros Ha Hb. rewrite Z.add_mod, Ha, Hb, <- Z.add_mod by lia. reflexivity. Qed.

Lemma mul_congr a a' b b' :
  a mod 2 ^ 32 = a' mod 2 ^ 32 -> b mod 2 ^ 32 = b' mod 2 ^ 32 ->
  (a * b) mod 2 ^ 32 = (a' * b') mod 2 ^ 32.
Proof. intros Ha Hb. rewrite Z.mul_mod, Ha, Hb, <- Z.mul_mod by lia. reflexivity. Qed.

Lemma write_restart_disp_wrap rank nx ny :
  write_restart_disp rank nx ny = to_int (layout_offset rank nx ny).
Proof.
  unfold write_restart_disp, layout_offset, size_t_add, size_t_mul, int_mul, int_add.
  apply to_int_congr.
  rewrite to_size_t_mod.
  apply add_congr.
  - rewrite to_size_t_mod, to_int_mod, to_size_t_mod. reflexivity.
  - rewrite to_size_t_mod.
    apply mul_congr; [|reflexivity].
    rewrite to_size_t_mod, to_int_mod.
    replace (rank * (nx + 2) * (ny + 2)) with (rank * (ny + 2) * (nx + 2)) by lia.
    apply mul_congr; [|apply to_int_mod].
    rewrite to_int_mod. apply mul_congr; [reflexivity|apply to_int_mod].
Qed.



Lemma read_restart_disp_wrap rank nx ny :
  read_restart_disp rank nx ny = to_int (layout_offset rank nx ny).
Proof.
  rewrite <- write_restart_disp_wrap.
  unfold read_restart_disp, write_restart_disp. reflexivity.
Qed.

Lemma int_add_small a b : is_int (a + b) -> int_add a b = a + b.
Proof. apply to_int_id. Qed.

Lemma int_mul_small a b : is_int (a * b) -> int_mul a b = a * b.
Proof. apply to_int_id. Qed.

(** A cell count that an [int] holds is computed without wrapping. *)
Lemma restart_size_cells nx ny :
  0 <= nx -> 0 <= ny -> (nx + 2) * (ny + 2) <= INT_MAX ->
  restart_size nx ny = (nx + 2) * (ny + 2).
Proof.
  unfold restart_size, INT_MAX. intros Hx Hy Hb.
  rewrite !int_add_small by (unfold is_int, INT_MIN, INT_MAX; nia).
  apply int_mul_small. unfold is_int, INT_MIN, INT_MAX. nia.
Qed.


Lemma write_restart_disp_small rank nx ny :
  is_int (layout_offset rank nx ny) ->
  write_restart_disp rank nx ny = layout_offset rank nx ny.
Proof. intros H. rewrite write_restart_disp_wrap. by apply to_int_id. Qed.

Lemma layout_offset_tile rank nx ny :
  layout_offset rank nx ny = header_bytes + rank * tile_bytes nx ny.
Proof. unfold layout_offset, header_bytes, tile_bytes. lia. Qed.

(** The start of every block is an [int] as soon as the start of the last
    one is. *)
Lemma layout_offset_is_int P rank nx ny :
  0 <= nx -> 0 <= ny -> 0 <= rank < P ->
  header_bytes + (P - 1) * tile_bytes nx ny <= INT_MAX ->
  is_int (layout_offset rank nx ny).
Proof.
  rewrite layout_offset_tile.
  unfold is_int, header_bytes, tile_bytes, sizeof_int, sizeof_double, INT_MIN, INT_MAX.
  intros Hx Hy Hr Hb. nia.
Qed.


(** ** The offsets of writer and reader *)

(** C3, as the code has it: for every rank and all tile dimensions,
    [read_restart] and [write_restart] compute the same byte offset, by the
    same expression.  Both are the value of
    [3*sizeof(int) + rank*(local_rows+2)*(local_cols+2)*sizeof(double)]
    reduced modulo 2^32 into the range of the [int] variable [disp] that
    holds it; they are that number itself exactly when an [int] can hold
    it. *)
Theorem restart_offsets_agree (rank nx ny : Z) :
  let v := 3 * sizeof_int + rank * (nx + 2) * (ny + 2) * sizeof_double in
  read_restart_disp rank nx ny = write_restart_disp rank nx ny /\
  write_restart_disp rank nx ny = to_int v /\
  read_restart_disp rank nx ny = to_int v /\
  (is_int v <-> write_restart_disp rank nx ny = v) /\
  (is_int v <-> read_restart_disp rank nx ny = v).
Proof.
  cbv zeta.
  pose proof (write_restart_disp_wrap rank nx ny) as Ew.
  pose proof (read_restart_disp_wrap rank nx ny) as Er.
  unfold layout_offset in Ew, Er.
  split; [congruence|]. split; [done|]. split; [done|].
  rewrite Er, Ew.
  assert (H : forall v, is_int v <-> to_int v = v).
  { intros v. split; [apply to_int_id|].
    intros <-. apply to_int_range. }
  split; apply H.
Qed.

Lemma restart_offsets_agree_witness :
  is_int (3 * sizeof_int + 3 * (10 + 2) * (20 + 2) * sizeof_double) /\
  write_restart_disp 3 10 20 = 6348 /\ read_restart_disp 3 10 20 = 6348.
Proof.
  assert (Hv : is_int (3 * sizeof_int + 3 * (10 + 2) * (20 + 2) * sizeof_double))
    by (vm_compute; split; discriminate).
  split; [exact Hv|].
  destruct (restart_offsets_agree 3 10 20) as (_ & _ & _ & Hw & Hr).
  split; [exact (proj1 Hw Hv) | exact (proj1 Hr Hv)].
Defined.

(** C3 as stated, for every rank and all dimensions, fails: for rank 1 and
    tiles of 16384 by 16384 cells the formula gives 2147483660; writer and
    reader both compute -2147483636. *)
Lemma restart_offset_is_not_the_formula :
  3 * sizeof_int + 1 * (16382 + 2) * (16382 + 2) * sizeof_double = 2147483660 /\
  write_restart_disp 1 16382 16382 = -2147483636 /\
  read_restart_disp 1 16382 16382 = -2147483636 /\
  write_restart_disp 1 16382 16382 <>
    3 * sizeof_int + 1 * (16382 + 2) * (16382 + 2) * sizeof_double.
Proof. repeat split. discriminate. Qed.

(** C10: the offset is held in a 32-bit signed [int]: in writer and reader it
    is the mathematical offset wrapped modulo 2^32 into the signed range, and
    it is the mathematical offset exactly when that is below 2^31. *)
Theorem restart_disp_32bit (rank nx ny : Z) :
  0 <= rank -> 0 <= nx -> 0 <= ny ->
  let v := 3 * sizeof_int + rank * (nx + 2) * (ny + 2) * sizeof_double in
  write_restart_disp rank nx ny = v - 2 ^ 32 * ((v + 2 ^ 31) / 2 ^ 32) /\
  read_restart_disp rank nx ny = v - 2 ^ 32 * ((v + 2 ^ 31) / 2 ^ 32) /\
  - 2 ^ 31 <= write_restart_disp rank nx ny < 2 ^ 31 /\
  (write_restart_disp rank nx ny = v <-> v < 2 ^ 31) /\
  (read_restart_disp rank nx ny = v <-> v < 2 ^ 31).
Proof.
  intros Hr Hx Hy v.
  assert (Hv : 0 <= v) by (unfold v, sizeof_int, sizeof_double; nia).
  pose proof (write_restart_disp_wrap rank nx ny) as Ew.
  pose proof (read_restart_disp_wrap rank nx ny) as Er.
  unfold layout_offset in Ew, Er. fold v in Ew, Er.
  clearbody v.
  generalize dependent (write_restart_disp rank nx ny). intros w ->.
  generalize dependent (read_restart_disp rank nx ny). intros r ->.
  pose proof (to_int_range v) as Hrange.
  pose proof (to_int_wrap v) as Hwrap.
  unfold is_int, INT_MIN, INT_MAX in Hrange.
  assert (Hiff : to_int v = v <-> v < 2 ^ 31).
  { split.
    - intros E. rewrite E in Hrange. lia.
    - intros Hlt. apply to_int_id. unfold is_int, INT_MIN, INT_MAX. lia. }
  repeat split; try apply Hiff; lia.
Qed.

Lemma restart_disp_32bit_witness :
  (0 <= 1 /\ 0 <= 16382 /\ 0 <= 16382) /\
  write_restart_disp 1 16382 16382 = 12 - 2 ^ 31 /\
  (write_restart_disp 1 2 2 = 140 <-> 140 < 2 ^ 31).
Proof.
  split; [lia|]. split.
  - destruct (restart_disp_32bit 1 16382 16382) as (E & _); [lia..|].
    rewrite E. reflexivity.
  - destruct (restart_disp_32bit 1 2 2) as (_ & _ & _ & E & _); [lia..|].
    exact E.
Defined.

(** ** Disjointness of the written ranges *)

Lemma write_restart_range_small P rank nx ny :
  0 <= nx -> 0 <= ny -> 0 <= rank < P ->
  header_bytes + (P - 1) * tile_bytes nx ny <= INT_MAX ->
  (nx + 2) * (ny + 2) <= INT_MAX ->
  write_restart_range rank nx ny =
    (header_bytes + rank * tile_bytes nx ny,
     header_bytes + (rank + 1) * tile_bytes nx ny).
Proof.
  intros Hx Hy Hr Hb Hc.
  pose proof (layout_offset_is_int P rank nx ny Hx Hy Hr Hb) as Hi.
  unfold write_restart_range.
  rewrite write_restart_disp_small, restart_size_cells, layout_offset_tile by done.
  unfold tile_bytes. f_equal. lia.
Qed.

(** C4, where the start of every block and the number of cells of a tile
    are within the [int] range, that is [H + (P-1)*T <= 2^31 - 1] and
    [(nx+2)*(ny+2) <= 2^31 - 1]: the ranges the [P] ranks write are
    [H + i*T, H + (i+1)*T); they are pairwise disjoint and contiguous, and
    with the header they cover exactly the [H + P*T] bytes of the file. *)
Theorem write_ranges_partition (P nx ny : Z) :
  0 <= nx -> 0 <= ny ->
  header_bytes + (P - 1) * tile_bytes nx ny <= INT_MAX ->
  (nx + 2) * (ny + 2) <= INT_MAX ->
  let H := header_bytes in
  let T := tile_bytes nx ny in
  (forall i, 0 <= i < P ->
     write_restart_range i nx ny = (H + i * T, H + (i + 1) * T)) /\
  (forall i j, 0 <= i < P -> 0 <= j < P -> i <> j ->
     disjoint_ranges (write_restart_range i nx ny) (write_restart_range j nx ny)) /\
  (0 < P -> fst (write_restart_range 0 nx ny) = H) /\
  (forall i, 0 <= i -> i + 1 < P ->
     fst (write_restart_range (i + 1) nx ny) = snd (write_restart_range i nx ny)) /\
  (0 < P -> snd (write_restart_range (P - 1) nx ny) = H + P * T) /\
  (forall b, H <= b < H + P * T <->
     exists i, 0 <= i < P /\
       fst (write_restart_range i nx ny) <= b < snd (write_restart_range i nx ny)).
Proof.
  intros Hx Hy Hb Hc H T.
  assert (HT : 0 < T) by (unfold T, tile_bytes, sizeof_double; nia).
  assert (R : forall i, 0 <= i < P ->
     write_restart_range i nx ny = (H + i * T, H + (i + 1) * T)).
  { intros i Hi. by apply (write_restart_range_small P). }
  split; [exact R|]. split; [|split; [|split; [|split]]].
  - intros i j Hi Hj Hij. rewrite (R i), (R j) by done.
    unfold disjoint_ranges; simpl.
    destruct (Z.lt_total i j) as [Hlt | [-> | Hgt]]; [left; nia | done | right; nia].
  - intros HP. rewrite R by lia. simpl. lia.
  - intros i Hi1 Hi2. rewrite !R by lia. reflexivity.
  - intros HP. rewrite R by lia. simpl. f_equal. lia.
  - intros b. split.
    + intros Hb'. exists ((b - H) / T).
      pose proof (Z.mul_div_le (b - H) T HT).
      pose proof (Z.mul_succ_div_gt (b - H) T HT).
      assert (0 <= (b - H) / T < P).
      { split; [apply Z.div_pos; lia|]. apply Z.div_lt_upper_bound; lia. }
      split; [done|]. rewrite R by done. simpl. lia.
    + intros (i & Hi & Hin). rewrite R in Hin by done. simpl in Hin. nia.
Qed.

(** Two ranks with tiles of 16384 by 8192 cells, 2^30 bytes each: the file
    ends beyond 2^31, the start of the last block does not. *)
Lemma write_ranges_partition_witness :
  (0 <= 16382 /\ 0 <= 8190 /\
   header_bytes + (2 - 1) * tile_bytes 16382 8190 <= INT_MAX /\
   (16382 + 2) * (8190 + 2) <= INT_MAX) /\
  write_restart_range 0 16382 8190 = (12, 1073741836) /\
  write_restart_range 1 16382 8190 = (1073741836, 2147483660) /\
  disjoint_ranges (write_restart_range 0 16382 8190)
                  (write_restart_range 1 16382 8190).
Proof.
  split; [by vm_compute|].
  destruct (write_ranges_partition 2 16382 8190) as (R & D & _); [by vm_compute..|].
  split; [apply (R 0); lia|]. split; [apply (R 1); lia | apply (D 0 1); lia].
Defined.

(** C4 as stated, for every process count and tile size, fails: with two
    processes and tiles of 32768 by 16384 cells the tile takes 2^32 bytes,
    the offset of rank 1 wraps to 12, and both ranks write the same range. *)
Lemma write_ranges_wrapped_overlap :
  write_restart_range 0 32766 16382 = (12, 12 + 2 ^ 32) /\
  write_restart_range 1 32766 16382 = (12, 12 + 2 ^ 32) /\
  ~ disjoint_ranges (write_restart_range 0 32766 16382)
                    (write_restart_range 1 32766 16382).
Proof.
  assert (E0 : write_restart_range 0 32766 16382 = (12, 12 + 2 ^ 32)) by reflexivity.
  assert (E1 : write_restart_range 1 32766 16382 = (12, 12 + 2 ^ 32)) by reflexivity.
  rewrite E0, E1. repeat split. unfold disjoint_ranges. simpl. lia.
Qed.

(** ** Encoding *)

Lemma length_encode_le w z : length (encode_le w z) = w.
Proof. revert z. induction w as [|w IH]; intros z; simpl; [done|]. by rewrite IH. Qed.

Lemma decode_encode_le w z :
  decode_le (encode_le w z) = z mod 256 ^ Z.of_nat w.
Proof.
  revert z. induction w as [|w IH]; intros z.
  - simpl. by rewrite Z.mod_1_r.
  - cbn [encode_le decode_le]. rewrite IH.
    rewrite Nat2Z.inj_succ, Z.pow_succ_r by lia.
    rewrite Z.rem_mul_r by lia. reflexivity.
Qed.

Lemma decode_encode_int i : is_int i -> decode_int (encode_int i) = i.
Proof.
  intros Hi. unfold decode_int, encode_int.
  rewrite decode_encode_le.
  rewrite <- (to_int_id i) at 2 by done.
  apply to_int_congr. change (256 ^ Z.of_nat 4) with (2 ^ 32).
  by rewrite Z.mod_mod.
Qed.

Lemma decode_encode_double d :
  is_double d -> decode_double (encode_double d) = d.
Proof.
  intros Hd. unfold decode_double, encode_double.
  rewrite decode_encode_le. change (256 ^ Z.of_nat 8) with (2 ^ 64).
  by apply Z.mod_small.
Qed.

Lemma length_encode_doubles cells :
  length (encode_doubles cells) = (8 * length cells)%nat.
Proof.
  unfold encode_doubles. induction cells as [|c cells IH]; [done|].
  cbn [map concat]. rewrite length_app, IH.
  unfold encode_double. rewrite length_encode_le. simpl. lia.
Qed.

Lemma decode_encode_doubles cells tail :
  Forall is_double cells ->
  decode_doubles (length cells) (encode_doubles cells ++ tail) = cells.
Proof.
  unfold encode_doubles. induction 1 as [|c cells Hc _ IH]; [done|].
  cbn [map concat length decode_doubles]. rewrite <- app_assoc.
  assert (Hl : length (encode_double c) = 8%nat) by apply length_encode_le.
  rewrite take_app_length', drop_app_length' by done.
  by rewrite decode_encode_double, IH.
Qed.

Lemma encode_doubles_app a b :
  encode_doubles (a ++ b) = encode_doubles a ++ encode_doubles b.
Proof. unfold encode_doubles. by rewrite map_app, concat_app. Qed.

Lemma encode_doubles_concat {A} (g : A -> list Z) (l : list A) :
  concat (map (fun q => encode_doubles (g q)) l) =
    encode_doubles (concat (map g l)).
Proof.
  induction l as [|x l IH]; [done|].
  cbn [map concat]. by rewrite encode_doubles_app, IH.
Qed.

Lemma drop_encode_doubles k cells :
  drop (8 * k) (encode_doubles cells) = encode_doubles (drop k cells).
Proof.
  revert cells. induction k as [|k IH]; intros cells; [done|].
  destruct cells as [|c cells]; [done|].
  replace (8 * S k)%nat with (8 + 8 * k)%nat by lia.
  rewrite <- drop_drop. cbn [drop]. rewrite <- IH. reflexivity.
Qed.

(** ** Positioned writes *)

Section Pwrite.
Context (f bs : list Z) (off : Z) (Hoff : 0 <= off).

Local Abbreviation o := (Z.to_nat off).

Lemma pwrite_unfold :
  pwrite f off bs =
    (take o f ++ replicate (o - length f) 0) ++ bs ++ drop (o + length bs) f.
Proof.
  unfold pwrite. destruct (Z.ltb_spec off 0); [lia|].
  by rewrite <- app_assoc.
Qed.

Lemma pwrite_prefix_length :
  length (take o f ++ replicate (o - length f) 0) = o.
Proof. rewrite length_app, length_take, length_replicate. lia. Qed.

Lemma length_pwrite :
  length (pwrite f off bs) = Nat.max (length f) (o + length bs).
Proof.
  rewrite pwrite_unfold, length_app, pwrite_prefix_length.
  rewrite length_app, length_drop. lia.
Qed.

(** From the offset on, the file holds the bytes written and then what it
    held after them. *)
Lemma drop_pwrite :
  drop o (pwrite f off bs) = bs ++ drop (o + length bs) f.
Proof.
  rewrite pwrite_unfold. apply drop_app_length'.
  by rewrite pwrite_prefix_length.
Qed.

Lemma segment_pwrite : segment (pwrite f off bs) o (length bs) = bs.
Proof. unfold segment. rewrite drop_pwrite. by rewrite take_app_length. Qed.

(** What lies after the written range stays. *)
Lemma drop_pwrite_after k :
  (o + length bs <= k)%nat -> drop k (pwrite f off bs) = drop k f.
Proof.
  intros Hk. replace k with (o + (k - o))%nat by lia.
  rewrite <- drop_drop, drop_pwrite, drop_app_ge by lia.
  rewrite drop_drop. f_equal. lia.
Qed.

(** What lies before the written range, inside the file, stays. *)
Lemma take_pwrite_before k :
  (k <= o)%nat -> (k <= length f)%nat -> take k (pwrite f off bs) = take k f.
Proof.
  intros Hk Hf. rewrite pwrite_unfold.
  rewrite take_app_le by (rewrite pwrite_prefix_length; lia).
  rewrite take_app_le by (rewrite length_take; lia).
  rewrite take_take. f_equal. lia.
Qed.

Lemma segment_pwrite_after o' n :
  (o + length bs <= o')%nat ->
  segment (pwrite f off bs) o' n = segment f o' n.
Proof. intros H. unfold segment. by rewrite drop_pwrite_after. Qed.

Lemma segment_pwrite_before o' n :
  (o' + n <= o)%nat -> (o' + n <= length f)%nat ->
  segment (pwrite f off bs) o' n = segment f o' n.
Proof.
  intros H1 H2. unfold segment.
  rewrite !take_drop_commute. f_equal. by apply take_pwrite_before.
Qed.
End Pwrite.

Lemma segment_length_inv f o n bs :
  segment f o n = bs -> length bs = n -> (0 < n)%nat ->
  (o + n <= length f)%nat.
Proof.
  unfold segment. intros <-. rewrite length_take, length_drop. lia.
Qed.

Lemma drop_segment f o n : drop o f = segment f o n ++ drop (o + n) f.
Proof. unfold segment. by rewrite <- drop_drop, take_drop. Qed.

Lemma pwrite_append (a f bs : list Z) :
  pwrite (a ++ drop (length a) f) (Z.of_nat (length a)) bs =
    (a ++ bs) ++ drop (length (a ++ bs)) f.
Proof.
  rewrite pwrite_unfold by lia. rewrite Nat2Z.id.
  rewrite take_app_length, length_app, length_drop.
  replace (length a - (length a + (length f - length a)))%nat with 0%nat by lia.
  rewrite drop_app_ge, drop_drop by lia. simpl.
  rewrite <- !app_assoc. simpl. do 3 f_equal. rewrite length_app. lia.
Qed.

Lemma length_encode_int v : length (encode_int v) = 4%nat.
Proof. apply length_encode_le. Qed.

Lemma length_header_image rows cols iter :
  length (header_image rows cols iter) = 12%nat.
Proof. unfold header_image. by rewrite !length_app, !length_encode_int. Qed.

(** io.c:150-154: the three writes of rank 0 put the header at the start of
    the file. *)
Lemma header_written f rows cols iter :
  contents (MPI_File_write_int (MPI_File_write_int (MPI_File_write_int
      {| contents := f; pointer := 0 |} rows) cols) iter) =
    header_image rows cols iter ++ drop 12 f.
Proof.
  unfold MPI_File_write_int, header_image; cbn [contents pointer].
  pose proof (pwrite_append [] f (encode_int rows)) as E1.
  rewrite app_nil_l, drop_0 in E1. change (Z.of_nat (length [])) with 0 in E1.
  rewrite E1, app_nil_l.
  pose proof (pwrite_append (encode_int rows) f (encode_int cols)) as E2.
  rewrite length_encode_int in E2. change (Z.of_nat 4) with (0 + sizeof_int) in E2.
  rewrite length_encode_int, E2.
  pose proof (pwrite_append (encode_int rows ++ encode_int cols) f (encode_int iter)) as E3.
  rewrite !length_app, !length_encode_int in E3.
  change (Z.of_nat (4 + 4)) with (0 + sizeof_int + sizeof_int) in E3.
  rewrite length_app, !length_encode_int.
  rewrite E3. by rewrite <- !app_assoc.
Qed.

Lemma foldl_snoc {A B} (g : A -> B -> A) (a : A) (l : list B) (x : B) :
  foldl g a (l ++ [x]) = g (foldl g a l) x.
Proof. revert a. induction l as [|y l IH]; intros a; simpl; [done|apply IH]. Qed.

Lemma length_malloc_2d junk h w : length (malloc_2d junk h w) = Z.to_nat (h * w).
Proof. unfold malloc_2d. by rewrite length_map, length_seq. Qed.

(** The three collective reads of the header. *)
Lemma header_read rows cols iter tail :
  is_int rows -> is_int cols -> is_int iter ->
  let f := header_image rows cols iter ++ tail in
  MPI_File_read_all_int {| contents := f; pointer := 0 |} =
    (Some rows, {| contents := f; pointer := 4 |}) /\
  MPI_File_read_all_int {| contents := f; pointer := 4 |} =
    (Some cols, {| contents := f; pointer := 8 |}) /\
  MPI_File_read_all_int {| contents := f; pointer := 8 |} =
    (Some iter, {| contents := f; pointer := 12 |}).
Proof.
  intros Hr Hc Hi f.
  assert (S0 : segment f 0 4 = encode_int rows).
  { unfold segment, f, header_image. rewrite drop_0, <- !app_assoc.
    by rewrite take_app_length' by by rewrite length_encode_int. }
  assert (S4 : segment f 4 4 = encode_int cols).
  { unfold segment, f, header_image. rewrite <- !app_assoc.
    rewrite drop_app_length' by by rewrite length_encode_int.
    by rewrite take_app_length' by by rewrite length_encode_int. }
  assert (S8 : segment f 8 4 = encode_int iter).
  { unfold segment, f, header_image. rewrite <- !app_assoc.
    change 8%nat with (4 + 4)%nat. rewrite <- drop_drop.
    rewrite !drop_app_length' by by rewrite length_encode_int.
    by rewrite take_app_length' by by rewrite length_encode_int. }
  unfold MPI_File_read_all_int; cbn [contents pointer].
  change (Z.to_nat 0) with 0%nat. change (Z.to_nat 4) with 4%nat.
  change (Z.to_nat 8) with 8%nat.
  rewrite S0, S4, S8, !length_encode_int, !decode_encode_int by done.
  done.
Qed.

(** What [read_restart] returns on a file that has a header and, at the
    offset the process computes, a block of cells. *)
Lemma read_restart_reads junk scratch Q r iter0 rows cols iter tail cells rest :
  is_int rows -> is_int cols -> is_int iter ->
  let f := header_image rows cols iter ++ tail in
  let lrows := Z.quot rows Q in
  restart_size lrows cols = (lrows + 2) * (cols + 2) ->
  0 <= read_restart_disp r lrows cols ->
  length cells = Z.to_nat ((lrows + 2) * (cols + 2)) ->
  Forall is_double cells ->
  drop (Z.to_nat (read_restart_disp r lrows cols)) f =
    encode_doubles cells ++ rest ->
  read_restart junk scratch Q r iter0 (Some f) =
    Done ({| nx := lrows; ny := cols; nx_full := rows; ny_full := cols;
             data := cells |}, {| size := Q; rank := r |}, iter).
Proof.
  intros Hr Hc Hi f lrows. subst f lrows. intros Hsize Hdisp Hlen Hcells Hdrop.
  destruct (header_read rows cols iter tail Hr Hc Hi) as (E0 & E4 & E8).
  unfold read_restart, MPI_File_open_rdonly. cbv beta iota.
  rewrite E0, E4, E8. cbn [default from_option].
  unfold parallel_setup, set_field_dimensions, allocate_field;
    cbn [nx ny nx_full ny_full data size rank].
  rewrite Hsize.
  unfold MPI_File_read_at_all; cbn [contents].
  destruct (Z.ltb_spec (read_restart_disp r (Z.quot rows Q) cols) 0); [lia|].
  destruct (Z.ltb_spec ((Z.quot rows Q + 2) * (cols + 2)) 0) as [Hneg|Hpos].
  { cbn [orb].
    rewrite (nil_length_inv cells) by lia.
    rewrite (nil_length_inv (malloc_2d _ _ _)) by (rewrite length_malloc_2d; lia).
    done. }
  cbn [orb]. rewrite Hdrop.
  assert (Hk : Nat.min (Z.to_nat ((Z.quot rows Q + 2) * (cols + 2)))
                 (length (encode_doubles cells ++ rest) / 8) = length cells).
  { rewrite length_app, length_encode_doubles, <- Hlen.
    rewrite (Nat.mul_comm 8), Nat.div_add_l by done.
    lia. }
  rewrite Hk, decode_encode_doubles by done.
  rewrite <- (app_nil_r (malloc_2d _ _ _)).
  rewrite list_inserts_0_r by (by rewrite length_malloc_2d).
  by rewrite app_nil_r.
Qed.

(** What one process does to the file, when its tile has [size] cells. *)
Lemma write_restart_unfold t par iter fs :
  0 <= restart_size (nx t) (ny t) ->
  (length (data t) <= Z.to_nat (restart_size (nx t) (ny t)))%nat ->
  write_restart t par iter fs =
    Some (pwrite
            (if rank par =? 0
             then header_image (nx_full t) (ny_full t) iter
                    ++ drop 12 (default [] fs)
             else default [] fs)
            (write_restart_disp (rank par) (nx t) (ny t))
            (encode_doubles (data t))).
Proof.
  intros Hsize Hlen.
  unfold write_restart, MPI_File_write_at_all, MPI_File_open_create_wronly.
  destruct (Z.ltb_spec (restart_size (nx t) (ny t)) 0); [lia|].
  rewrite take_ge by done.
  destruct (rank par =? 0); cbn [contents]; [|done].
  by rewrite header_written.
Qed.

Section Checkpoint.

Context (P rows cols iter : Z) (tiles : Z -> field).

Hypothesis P_pos : 0 < P.
Hypothesis rows_int : 0 <= rows <= INT_MAX.
Hypothesis cols_int : 0 <= cols <= INT_MAX.
Hypothesis iter_int : is_int iter.
Hypothesis tiles_ok : forall q, 0 <= q < P -> tile_ok P rows cols (tiles q).
Hypothesis starts_fit :
  header_bytes + (P - 1) * tile_bytes (Z.quot rows P) cols <= INT_MAX.
Hypothesis cells_fit : (Z.quot rows P + 2) * (cols + 2) <= INT_MAX.

Local Abbreviation lrows := (Z.quot rows P).
Local Abbreviation T := (tile_bytes (Z.quot rows P) cols).
Local Abbreviation off q := (Z.to_nat (header_bytes + q * T)).
Local Abbreviation block q := (encode_doubles (data (tiles q))).

Lemma lrows_nonneg : 0 <= lrows.
Proof. apply Z.quot_pos; lia. Qed.

Lemma T_pos : 32 <= T.
Proof.
  clear starts_fit cells_fit. pose proof lrows_nonneg. unfold tile_bytes, sizeof_double. nia.
Qed.

Lemma length_block q : 0 <= q < P -> length (block q) = Z.to_nat T.
Proof.
  clear starts_fit cells_fit.
  intros Hq. destruct (tiles_ok q Hq) as (_ & _ & Hx & Hy & Hl & _).
  rewrite length_encode_doubles, Hl, Hx, Hy.
  pose proof lrows_nonneg. unfold tile_bytes, sizeof_double. nia.
Qed.

Lemma off_succ q : 0 <= q -> (off q + Z.to_nat T = off (q + 1))%nat.
Proof. clear starts_fit cells_fit. pose proof T_pos. unfold header_bytes, sizeof_int. nia. Qed.

Lemma off_lt q q' : 0 <= q < q' -> (off q + Z.to_nat T <= off q')%nat.
Proof. clear starts_fit cells_fit. pose proof T_pos. unfold header_bytes, sizeof_int. nia. Qed.

Lemma off_ge_header q : 0 <= q -> (12 <= off q)%nat.
Proof. clear starts_fit cells_fit. pose proof T_pos. unfold header_bytes, sizeof_int. nia. Qed.

(** What one process does to the file. *)
Lemma write_restart_step q fs :
  0 <= q < P ->
  write_restart (tiles q) {| size := P; rank := q |} iter fs =
    Some (pwrite
            (if q =? 0
             then header_image rows cols iter ++ drop 12 (default [] fs)
             else default [] fs)
            (header_bytes + q * T) (block q)).
Proof.
  intros Hq. destruct (tiles_ok q Hq) as (Hr & Hc & Hx & Hy & Hl & _).
  pose proof lrows_nonneg as Hn.
  assert (Hi : is_int (layout_offset q lrows cols))
    by (apply (layout_offset_is_int P); [lia..|done]).
  assert (Hs : restart_size (nx (tiles q)) (ny (tiles q)) =
               (nx (tiles q) + 2) * (ny (tiles q) + 2)).
  { rewrite Hx, Hy. apply restart_size_cells; [lia..|done]. }
  rewrite write_restart_unfold by (rewrite Hs; lia).
  cbn [rank]. rewrite Hr, Hc, Hx, Hy.
  by rewrite write_restart_disp_small, layout_offset_tile.
Qed.

Local Abbreviation written := (checkpoint_written P rows cols iter tiles).

Lemma written_step done old f q :
  0 <= q < P -> (forall q', q' ∈ done -> 0 <= q' < P) ->
  written done old f ->
  written (done ++ [q]) old
    (pwrite (if q =? 0 then header_image rows cols iter ++ drop 12 f else f)
            (header_bytes + q * T) (block q)).
Proof.
  intros Hq Hdone (Hseg & Hhdr & Hrest).
  pose proof T_pos as HT. pose proof (length_block q Hq) as Hlen.
  pose proof (off_ge_header q (proj1 Hq)) as H12.
  set (f1 := if q =? 0 then header_image rows cols iter ++ drop 12 f else f).
  assert (Hf1 : forall o n, (12 <= o)%nat -> segment f1 o n = segment f o n).
  { intros o n Ho. unfold f1. destruct (q =? 0); [|done]. unfold segment.
    f_equal. rewrite drop_app_ge; rewrite length_header_image; [|done].
    rewrite drop_drop. f_equal. lia. }
  assert (Hf1d : forall k, (12 <= k)%nat -> drop k f1 = drop k f).
  { intros k Hk. unfold f1. destruct (q =? 0); [|done].
    rewrite drop_app_ge; rewrite length_header_image; [|done].
    rewrite drop_drop. f_equal. lia. }
  assert (Hf1h : 0 ∈ done ++ [q] -> take 12 f1 = header_image rows cols iter
                                   /\ (12 <= length f1)%nat).
  { intros H0. unfold f1. destruct (Z.eqb_spec q 0) as [->|Hne].
    - rewrite take_app_length' by by rewrite length_header_image.
      split; [done|]. rewrite length_app, length_header_image. lia.
    - apply elem_of_app in H0 as [H0|H0%list_elem_of_singleton]; [|done].
      split; [by apply Hhdr|].
      rewrite <- (length_header_image rows cols iter), <- (Hhdr H0).
      rewrite length_take. pose proof (length_header_image rows cols iter) as E.
      rewrite <- (Hhdr H0), length_take in E. lia. }
  split; [|split].
  - intros q' [Hin| ->%list_elem_of_singleton]%elem_of_app.
    + destruct (Z.eq_dec q' q) as [->|Hne].
      * rewrite <- Hlen. by apply segment_pwrite; lia.
      * specialize (Hseg q' Hin). specialize (Hdone q' Hin).
        pose proof (length_block q' Hdone) as Hlen'.
        pose proof (segment_length_inv _ _ _ _ Hseg Hlen' ltac:(lia)) as Hin'.
        rewrite <- Hseg.
        destruct (Z.lt_total q' q) as [Hlt|[?|Hgt]]; [|done|].
        -- pose proof (off_lt q' q ltac:(lia)).
           rewrite segment_pwrite_before; [|lia|lia|].
           ++ apply Hf1. apply off_ge_header; lia.
           ++ pose proof (off_ge_header q' ltac:(lia)).
              unfold f1. destruct (q =? 0); [|lia].
              rewrite length_app, length_header_image, length_drop. lia.
        -- pose proof (off_lt q q' ltac:(lia)).
           rewrite segment_pwrite_after by lia.
           apply Hf1. apply off_ge_header; lia.
    + rewrite <- Hlen. apply segment_pwrite; lia.
  - intros H0. destruct (Hf1h H0) as [E L].
    rewrite take_pwrite_before by lia. done.
  - rewrite drop_pwrite_after.
    + rewrite Hf1d; [done|]. apply off_ge_header; lia.
    + unfold header_bytes, sizeof_int. nia.
    + rewrite Hlen. apply off_lt. lia.
Qed.
Lemma write_restart_all_written sched old :
  (forall q, q ∈ sched -> 0 <= q < P) ->
  written sched (default [] old)
          (default [] (write_restart_all sched P tiles iter old)) /\
  (sched <> [] -> is_Some (write_restart_all sched P tiles iter old)).
Proof.
  induction sched as [|q sched IH] using rev_ind; intros Hs.
  - split; [|done]. repeat split; [|intros H; by apply elem_of_nil in H].
    intros q H. by apply elem_of_nil in H.
  - destruct IH as [IH _].
    { intros q' Hq'. apply Hs, elem_of_app. by left. }
    assert (Hq : 0 <= q < P).
    { apply Hs, elem_of_app. right. by apply list_elem_of_singleton. }
    unfold write_restart_all in *. rewrite foldl_snoc.
    rewrite write_restart_step by done.
    split; [|by eexists]. cbn [default from_option].
    apply written_step; [done| |done].
    intros q' Hq'. apply Hs, elem_of_app. by left.
Qed.

(** The file after the collective write, whatever the order of the
    accesses: header, one block per rank, and beyond them what the file
    held before. *)
Lemma write_restart_all_file sched old :
  (forall q, q ∈ sched <-> 0 <= q < P) ->
  exists f,
    write_restart_all sched P tiles iter old = Some f /\
    take 12 f = header_image rows cols iter /\
    (forall q, 0 <= q < P -> segment f (off q) (Z.to_nat T) = block q) /\
    drop (off P) f = drop (off P) (default [] old).
Proof.
  intros Hs.
  destruct (write_restart_all_written sched old) as [(Hseg & Hhdr & Hrest) Hsome].
  { intros q. apply Hs. }
  destruct Hsome as [f Hf].
  { intros ->. assert (H0 : 0 ∈ @nil Z) by (apply Hs; lia).
    by apply elem_of_nil in H0. }
  rewrite Hf in *. cbn [default from_option] in *.
  exists f. split; [done|]. split; [apply Hhdr, Hs; lia|].
  split; [|done]. intros q Hq. by apply Hseg, Hs.
Qed.
Lemma file_split f :
  take 12 f = header_image rows cols iter ->
  f = header_image rows cols iter ++ drop 12 f.
Proof. intros <-. by rewrite take_drop. Qed.

(** C1, where the start of every block and the number of cells of a tile
    are within the [int] range, that is [H + (P-1)*T <= 2^31 - 1] and
    [(local_rows+2)*(cols+2) <= 2^31 - 1]: for tiles of a uniform row
    decomposition over [P] processes, [read_restart] on the file the
    [P] processes wrote with [write_restart] returns to every rank its
    tile, ghost cells included, cell for cell and bit for bit, and the
    iteration number that was written, whatever the order of the accesses
    to the file, what the file held before and what [*iter] held at the
    call. *)
Theorem restart_round_trip junk scratch iter0 sched old r :
  (forall q, q ∈ sched <-> 0 <= q < P) ->
  0 <= r < P ->
  read_restart junk scratch P r iter0 (write_restart_all sched P tiles iter old) =
    Done (tiles r, {| size := P; rank := r |}, iter).
Proof.
  intros Hs Hr.
  destruct (write_restart_all_file sched old Hs) as (f & -> & Hhdr & Hseg & _).
  destruct (tiles_ok r Hr) as (Hrows & Hcols & Hx & Hy & Hl & Hd).
  pose proof lrows_nonneg as Hn.
  assert (Hi : is_int (layout_offset r lrows cols))
    by (apply (layout_offset_is_int P); [lia..|done]).
  assert (Hdisp : read_restart_disp r lrows cols = header_bytes + r * T).
  { by rewrite read_restart_disp_wrap, to_int_id, layout_offset_tile. }
  rewrite (file_split f Hhdr).
  rewrite (read_restart_reads junk scratch P r iter0 rows cols iter (drop 12 f)
             (data (tiles r)) (drop (off r + Z.to_nat T) f)).
  - destruct (tiles r) as [x y xf yf d]; cbn [nx ny nx_full ny_full data] in *.
    by subst.
  - unfold is_int, INT_MIN. lia.
  - unfold is_int, INT_MIN. lia.
  - done.
  - apply restart_size_cells; [lia..|done].
  - rewrite Hdisp. rewrite layout_offset_tile in Hi. unfold is_int in Hi.
    pose proof T_pos. unfold header_bytes, sizeof_int. nia.
  - by rewrite Hl, Hx, Hy.
  - done.
  - rewrite <- (file_split f Hhdr), Hdisp, <- (Hseg r Hr).
    apply drop_segment.
Qed.

Lemma take_blocks f (k : nat) :
  Z.of_nat k <= P ->
  take 12 f = header_image rows cols iter ->
  (forall q, 0 <= q < P -> segment f (off q) (Z.to_nat T) = block q) ->
  take (off (Z.of_nat k)) f =
    header_image rows cols iter ++
    concat (map (fun q => block q) (seqZ 0 (Z.of_nat k))).
Proof.
  intros Hk Hhdr Hseg. induction k as [|k IH].
  - change (off (Z.of_nat 0)) with 12%nat. rewrite Hhdr.
    change (seqZ 0 (Z.of_nat 0)) with (@nil Z). cbn [map concat].
    by rewrite app_nil_r.
  - rewrite seqZ_S, map_app, concat_app. cbn [map concat].
    rewrite app_nil_r, app_assoc, <- IH by lia.
    rewrite Z.add_0_l, <- (Hseg (Z.of_nat k)) by lia.
    unfold segment. rewrite take_take_drop. f_equal.
    rewrite off_succ by lia. f_equal. lia.
Qed.

(** The file after the collective write, as a stream of cells. *)
Lemma write_restart_all_cells sched old :
  (forall q, q ∈ sched <-> 0 <= q < P) ->
  exists rest,
    write_restart_all sched P tiles iter old =
      Some (header_image rows cols iter ++
            encode_doubles (checkpoint_cells P tiles) ++ rest).
Proof.
  intros Hs.
  destruct (write_restart_all_file sched old Hs) as (f & -> & Hhdr & Hseg & _).
  exists (drop (off P) f). f_equal.
  rewrite <- (take_drop (off P) f) at 1. rewrite app_assoc. f_equal.
  pose proof (take_blocks f (Z.to_nat P)) as E.
  rewrite Z2Nat.id in E by lia. rewrite E by (done || lia).
  unfold checkpoint_cells. by rewrite encode_doubles_concat.
Qed.

Lemma length_checkpoint_cells :
  length (checkpoint_cells P tiles) =
    Z.to_nat (P * ((lrows + 2) * (cols + 2))).
Proof.
  clear starts_fit cells_fit.
  unfold checkpoint_cells. pose proof lrows_nonneg as Hn.
  assert (G : forall k : nat, Z.of_nat k <= P ->
    length (concat (map (fun q => data (tiles q)) (seqZ 0 (Z.of_nat k)))) =
      (k * Z.to_nat ((lrows + 2) * (cols + 2)))%nat).
  { induction k as [|k IH]; intros Hk; [done|].
    rewrite seqZ_S, map_app, concat_app, length_app, IH by lia.
    cbn [map concat]. rewrite app_nil_r, Z.add_0_l.
    destruct (tiles_ok (Z.of_nat k) ltac:(lia)) as (_ & _ & Hx & Hy & Hl & _).
    rewrite Hl, Hx, Hy. lia. }
  specialize (G (Z.to_nat P)). rewrite Z2Nat.id in G by lia.
  rewrite G by lia. nia.
Qed.

Lemma checkpoint_cells_double : Forall is_double (checkpoint_cells P tiles).
Proof.
  unfold checkpoint_cells. apply Forall_concat, Forall_fmap, Forall_forall.
  intros q Hq%elem_of_seqZ. by apply tiles_ok; lia.
Qed.

(** C6, as the code has it, where the start of every block and the number
    of cells of a tile are within the [int] range: the file is opened
    without truncation.  After the collective write it holds the header,
    then the [P] blocks in rank order, [H + P*T] bytes in all, and after
    them the bytes a longer file of that name held before. *)
Theorem write_restart_keeps_old_tail sched old :
  (forall q, q ∈ sched <-> 0 <= q < P) ->
  length (checkpoint_image P tiles iter) = Z.to_nat (header_bytes + P * T) /\
  write_restart_all sched P tiles iter old =
    Some (checkpoint_image P tiles iter ++
          drop (length (checkpoint_image P tiles iter)) (default [] old)).
Proof.
  intros Hs.
  destruct (write_restart_all_file sched old Hs) as (f & -> & Hhdr & Hseg & Hrest).
  assert (Himg : take (off P) f = checkpoint_image P tiles iter).
  { unfold checkpoint_image.
    destruct (tiles_ok 0 ltac:(lia)) as (-> & -> & _).
    pose proof (take_blocks f (Z.to_nat P)) as E.
    rewrite Z2Nat.id in E by lia. apply E; [lia|done..]. }
  assert (Hlen : length (checkpoint_image P tiles iter) = off P).
  { rewrite <- Himg, length_take.
    assert (Hlast : segment f (off (P - 1)) (Z.to_nat T) = block (P - 1))
      by (apply Hseg; lia).
    apply segment_length_inv in Hlast;
      [|apply length_block; lia|pose proof T_pos; lia].
    pose proof (off_succ (P - 1) ltac:(lia)) as E.
    replace (P - 1 + 1) with P in E by lia. lia. }
  split; [done|].
  rewrite Hlen, <- Hrest, <- Himg. by rewrite take_drop.
Qed.
End Checkpoint.

Lemma small_tile_ok q : 0 <= q < 2 -> tile_ok 2 2 1 (small_tile q).
Proof.
  intros Hq. unfold tile_ok, small_tile; cbn [nx ny nx_full ny_full data].
  split_and!; try reflexivity.
  apply Forall_map, Forall_forall. intros k Hk%elem_of_seqZ.
  unfold is_double. lia.
Qed.

Lemma restart_round_trip_witness :
  (header_bytes + (2 - 1) * tile_bytes (Z.quot 2 2) 1 <= INT_MAX /\
   (Z.quot 2 2 + 2) * (1 + 2) <= INT_MAX /\ 0 <= 1 < 2) /\
  read_restart no_junk (small_tile 5) 2 1 41
    (write_restart_all [1; 0] 2 small_tile 7 (Some (replicate 200 255))) =
    Done (small_tile 1, {| size := 2; rank := 1 |}, 7).
Proof.
  split; [by vm_compute|].
  apply (restart_round_trip 2 2 1 7 small_tile).
  - lia.
  - by vm_compute.
  - by vm_compute.
  - by vm_compute.
  - exact small_tile_ok.
  - by vm_compute.
  - by vm_compute.
  - intros q. rewrite !elem_of_cons, elem_of_nil. lia.
  - lia.
Defined.

(** *** Where the offset wraps *)

Lemma wide_tile_ok v : is_double v -> tile_ok 2 65532 16382 (wide_tile v).
Proof.
  intros Hv. unfold tile_ok, wide_tile; cbn [nx ny nx_full ny_full data].
  split; [reflexivity|]. split; [reflexivity|]. split; [reflexivity|].
  split; [reflexivity|]. split.
  - rewrite length_replicate. f_equal.
  - by apply Forall_replicate.
Qed.

Lemma wide_tile_first v : data (wide_tile v) !! 0%nat = Some v.
Proof.
  cbn [data wide_tile]. apply lookup_replicate_2.
  apply (Z2Nat.inj_lt 0 (32768 * 16384)); reflexivity || discriminate.
Qed.

Lemma wide_tiles_differ : wide_tile 1 <> wide_tile 0.
Proof.
  intros E.
  assert (H : data (wide_tile 1) !! 0%nat = data (wide_tile 0) !! 0%nat)
    by (rewrite E; reflexivity).
  rewrite !wide_tile_first in H. discriminate.
Qed.

(** Two processes whose offsets are both 12: the one that writes last
    replaces the tile of the other, and rank 0 reads what is there. *)
Lemma restart_after_overlap junk scratch iter0 rows cols iter (tiles : Z -> field) :
  tile_ok 2 rows cols (tiles 0) -> tile_ok 2 rows cols (tiles 1) ->
  is_int rows -> is_int cols -> is_int iter ->
  0 <= (Z.quot rows 2 + 2) * (cols + 2) ->
  restart_size (Z.quot rows 2) cols = (Z.quot rows 2 + 2) * (cols + 2) ->
  write_restart_disp 0 (Z.quot rows 2) cols = 12 ->
  write_restart_disp 1 (Z.quot rows 2) cols = 12 ->
  read_restart junk scratch 2 0 iter0 (write_restart_all [0; 1] 2 tiles iter None) =
    Done (tiles 1, {| size := 2; rank := 0 |}, iter).
Proof.
  intros (Hr0 & Hc0 & Hx0 & Hy0 & Hl0 & Hd0) (Hr1 & Hc1 & Hx1 & Hy1 & Hl1 & Hd1)
    Hrows Hcols Hiter Hnn Hsize Hd0' Hd1'.
  unfold write_restart_all; cbn [foldl].
  rewrite !write_restart_unfold; cbn [rank];
    rewrite ?Hx0, ?Hy0, ?Hx1, ?Hy1, ?Hsize, ?Hl0, ?Hl1, ?Hx0, ?Hy0, ?Hx1, ?Hy1;
    try lia.
  rewrite Hr0, Hc0, Hd0', Hd1'.
  change (0 =? 0) with true. change (1 =? 0) with false.
  cbn [default from_option id].
  set (B0 := encode_doubles (data (tiles 0))).
  set (B1 := encode_doubles (data (tiles 1))).
  set (f1 := pwrite (header_image rows cols iter ++ drop 12 []) 12 B0).
  assert (Hf1 : take 12 f1 = header_image rows cols iter /\ (12 <= length f1)%nat).
  { unfold f1. split.
    - rewrite take_pwrite_before;
        [|lia|lia|rewrite length_app, length_header_image; lia].
      by rewrite take_app_length' by by rewrite length_header_image.
    - rewrite length_pwrite, length_app, length_header_image by lia. lia. }
  destruct Hf1 as [Hhdr Hlen].
  assert (Hsplit : pwrite f1 12 B1 =
            header_image rows cols iter ++ drop 12 (pwrite f1 12 B1)).
  { rewrite <- Hhdr at 1.
    rewrite <- (take_pwrite_before f1 B1 12 ltac:(lia) 12) by lia.
    by rewrite take_drop. }
  assert (Hread : read_restart_disp 0 (Z.quot rows 2) cols = 12).
  { by rewrite read_restart_disp_wrap, <- write_restart_disp_wrap. }
  rewrite Hsplit.
  rewrite (read_restart_reads junk scratch 2 0 iter0 rows cols iter
             (drop 12 (pwrite f1 12 B1)) (data (tiles 1))
             (drop (12 + length B1) f1)).
  - destruct (tiles 1) as [x y xf yf d]; cbn [nx ny nx_full ny_full data] in *.
    by subst.
  - exact Hrows.
  - exact Hcols.
  - exact Hiter.
  - exact Hsize.
  - rewrite Hread. lia.
  - by rewrite Hl1, Hx1, Hy1.
  - exact Hd1.
  - rewrite Hread, <- Hsplit. apply (drop_pwrite f1 B1 12). lia.
Qed.

(** C1 as stated, for every process count and grid size, fails: two
    processes with tiles of 2^32 bytes both compute the offset 12, the tile of
    the process that writes last replaces the other, and rank 0 restarts with
    the cells of rank 1. *)
Lemma restart_round_trip_wraps :
  (tile_ok 2 65532 16382 (wide_tile 0) /\ tile_ok 2 65532 16382 (wide_tile 1)) /\
  read_restart no_junk (wide_tile 0) 2 0 0
      (write_restart_all [0; 1] 2 wide_tile 7 None) =
    Done (wide_tile 1, {| size := 2; rank := 0 |}, 7) /\
  wide_tile 1 <> wide_tile 0.
Proof.
  assert (H0 : tile_ok 2 65532 16382 (wide_tile 0))
    by (apply wide_tile_ok; unfold is_double; lia).
  assert (H1 : tile_ok 2 65532 16382 (wide_tile 1))
    by (apply wide_tile_ok; unfold is_double; lia).
  split; [exact (conj H0 H1)|]. split; [|exact wide_tiles_differ].
  apply (restart_after_overlap no_junk (wide_tile 0) 0 65532 16382 7 wide_tile H0 H1).
  - unfold is_int, INT_MIN, INT_MAX. lia.
  - unfold is_int, INT_MIN, INT_MAX. lia.
  - unfold is_int, INT_MIN, INT_MAX. lia.
  - discriminate.
  - reflexivity.
  - reflexivity.
  - reflexivity.
Qed.

(** *** A longer file of the same name *)

Lemma single_tile_ok q : 0 <= q < 1 -> tile_ok 1 1 1 (single_tile q).
Proof.
  intros Hq. unfold tile_ok, single_tile; cbn [nx ny nx_full ny_full data].
  split_and!; try reflexivity.
  apply Forall_forall. intros k Hk%elem_of_seqZ. unfold is_double. lia.
Qed.

Lemma write_restart_keeps_old_tail_witness :
  (header_bytes + (1 - 1) * tile_bytes (Z.quot 1 1) 1 <= INT_MAX /\
   (Z.quot 1 1 + 2) * (1 + 2) <= INT_MAX) /\
  length (checkpoint_image 1 single_tile 7) = 84%nat /\
  write_restart_all [0] 1 single_tile 7 (Some (replicate 200 255)) =
    Some (checkpoint_image 1 single_tile 7 ++ replicate 116 255).
Proof.
  assert (Hstarts : header_bytes + (1 - 1) * tile_bytes (Z.quot 1 1) 1 <= INT_MAX)
    by (vm_compute; discriminate).
  assert (Hcells : (Z.quot 1 1 + 2) * (1 + 2) <= INT_MAX)
    by (vm_compute; discriminate).
  assert (Hsched : forall q, q ∈ [0] <-> 0 <= q < 1)
    by (intros q; rewrite !elem_of_cons, elem_of_nil; lia).
  destruct (write_restart_keeps_old_tail 1 1 1 7 single_tile
              ltac:(lia) ltac:(unfold INT_MAX; lia) ltac:(unfold INT_MAX; lia)
              single_tile_ok Hstarts Hcells [0] (Some (replicate 200 255)) Hsched)
    as [Hlen Hfile].
  split; [exact (conj Hstarts Hcells)|].
  split; [rewrite Hlen; reflexivity|].
  rewrite Hfile, Hlen. reflexivity.
Defined.

(** C6 as stated fails: [write_restart] on a file of 200 bytes leaves a file of
    200 bytes, the 84 bytes of the checkpoint followed by the last 116 bytes
    of the old file. *)
Lemma write_restart_does_not_truncate :
  write_restart (single_tile 0) {| size := 1; rank := 0 |} 7
      (Some (replicate 200 255)) =
    Some (checkpoint_image 1 single_tile 7 ++ replicate 116 255) /\
  write_restart_all [0] 1 single_tile 7 (Some (replicate 200 255)) <>
    Some (checkpoint_image 1 single_tile 7).
Proof. split; [by vm_compute|]. vm_compute. discriminate. Qed.

(** ** Restarting on another number of processes *)

(** C2, as the code has it: [read_restart] makes no comparison between the
    number of processes of the restart and the one the checkpoint was
    written with, of which the header holds no trace.  A checkpoint written
    by [P] processes and restarted on [Q] processes, [Q] dividing the rows,
    is read by every rank as a checkpoint of [Q] processes: where the
    offset and the cell count of the rank are within the [int] range and
    its block lies within the written cells, [read_restart] returns normally
    with a tile of [rows/Q + 2] by [cols + 2] cells, which are the cells
    [rank*n .. (rank+1)*n - 1] of the written stream, [n] the size of the
    tile: cells of other tiles when [Q] is not [P]. *)
Theorem restart_on_other_count_reads_stream junk scratch iter0 P Q rows cols
    iter (tiles : Z -> field) sched old r :
  0 < P -> 0 < Q -> Z.rem rows Q = 0 ->
  0 <= rows <= INT_MAX -> 0 <= cols <= INT_MAX -> is_int iter ->
  (forall q, 0 <= q < P -> tile_ok P rows cols (tiles q)) ->
  header_bytes + (P - 1) * tile_bytes (Z.quot rows P) cols <= INT_MAX ->
  (Z.quot rows P + 2) * (cols + 2) <= INT_MAX ->
  (forall q, q ∈ sched <-> 0 <= q < P) ->
  let n := (Z.quot rows Q + 2) * (cols + 2) in
  0 <= r < Q ->
  n <= INT_MAX ->
  header_bytes + r * tile_bytes (Z.quot rows Q) cols <= INT_MAX ->
  (r + 1) * n <= P * ((Z.quot rows P + 2) * (cols + 2)) ->
  read_restart junk scratch Q r iter0
      (write_restart_all sched P tiles iter old) =
    Done ({| nx := Z.quot rows Q; ny := cols; nx_full := rows; ny_full := cols;
             data := take (Z.to_nat n)
                       (drop (Z.to_nat (r * n)) (checkpoint_cells P tiles)) |},
          {| size := Q; rank := r |}, iter).
Proof.
  intros HP HQ Hdiv Hrows Hcols Hiter Hok Hstarts Hcells Hs n Hr Hn Hoff Hin.
  destruct (write_restart_all_cells P rows cols iter tiles HP Hrows Hcols Hok
              Hstarts Hcells sched old Hs) as (rest & ->).
  pose proof (length_checkpoint_cells P rows cols tiles HP Hrows Hcols Hok)
    as Hlen.
  pose proof (checkpoint_cells_double P rows cols tiles Hok) as Hdbl.
  set (cs := checkpoint_cells P tiles) in *.
  assert (Hq : 0 <= Z.quot rows Q) by (apply Z.quot_pos; lia).
  assert (Hn0 : 0 < n) by (unfold n; nia).
  assert (Hdisp : read_restart_disp r (Z.quot rows Q) cols =
                  header_bytes + 8 * (r * n)).
  { rewrite read_restart_disp_wrap, to_int_id; rewrite layout_offset_tile.
    - unfold tile_bytes, sizeof_double. fold n. lia.
    - unfold is_int, INT_MIN. split; [|done].
      unfold header_bytes, tile_bytes, sizeof_int, sizeof_double. fold n. nia. }
  apply (read_restart_reads junk scratch Q r iter0 rows cols iter
           (encode_doubles cs ++ rest)
           (take (Z.to_nat n) (drop (Z.to_nat (r * n)) cs))
           (encode_doubles (drop (Z.to_nat n) (drop (Z.to_nat (r * n)) cs))
              ++ rest)).
  - unfold is_int, INT_MIN. lia.
  - unfold is_int, INT_MIN. lia.
  - exact Hiter.
  - apply restart_size_cells; [lia..|done].
  - rewrite Hdisp. unfold header_bytes, sizeof_int. nia.
  - rewrite length_take, length_drop, Hlen. fold n. nia.
  - by apply Forall_take, Forall_drop.
  - rewrite Hdisp.
    replace (Z.to_nat (header_bytes + 8 * (r * n)))
      with (12 + 8 * Z.to_nat (r * n))%nat
      by (unfold header_bytes, sizeof_int; nia).
    rewrite <- drop_drop.
    rewrite drop_app_length' by apply (length_header_image rows cols iter).
    rewrite drop_app_le by (rewrite length_encode_doubles, Hlen; nia).
    rewrite drop_encode_doubles, app_assoc, <- encode_doubles_app.
    by rewrite take_drop.
Qed.

(** C2 as stated fails: a checkpoint of two processes (tiles of 9 cells) is
    restarted on one process (a tile of 12 cells); [read_restart] returns
    normally, with the tile of rank 0 followed by the first row of the tile
    of rank 1. *)
Lemma restart_on_other_count_proceeds :
  read_restart no_junk (small_tile 0) 1 0 0
      (write_restart_all [0; 1] 2 small_tile 7 None) =
    Done ({| nx := 2; ny := 1; nx_full := 2; ny_full := 1;
             data := [0; 1; 2; 3; 4; 5; 6; 7; 8; 100; 101; 102] |},
          {| size := 1; rank := 0 |}, 7).
Proof. by vm_compute. Qed.

(** A checkpoint of two processes restarted on one. *)
Lemma restart_on_other_count_reads_stream_witness :
  (Z.rem 2 1 = 0 /\
   (Z.quot 2 1 + 2) * (1 + 2) <= INT_MAX /\
   header_bytes + 0 * tile_bytes (Z.quot 2 1) 1 <= INT_MAX /\
   (0 + 1) * ((Z.quot 2 1 + 2) * (1 + 2)) <= 2 * ((Z.quot 2 2 + 2) * (1 + 2))) /\
  read_restart other_junk (small_tile 0) 1 0 41
      (write_restart_all [1; 0] 2 small_tile 7 (Some (replicate 200 255))) =
    Done ({| nx := 2; ny := 1; nx_full := 2; ny_full := 1;
             data := [0; 1; 2; 3; 4; 5; 6; 7; 8; 100; 101; 102] |},
          {| size := 1; rank := 0 |}, 7).
Proof.
  split; [by vm_compute|].
  apply (restart_on_other_count_reads_stream other_junk (small_tile 0) 41
           2 1 2 1 7 small_tile [1; 0] (Some (replicate 200 255)) 0).
  - lia.
  - lia.
  - reflexivity.
  - by vm_compute.
  - by vm_compute.
  - by vm_compute.
  - exact small_tile_ok.
  - by vm_compute.
  - by vm_compute.
  - intros q. rewrite !elem_of_cons, elem_of_nil. lia.
  - lia.
  - by vm_compute.
  - by vm_compute.
  - by vm_compute.
Defined.

(** ** Loops and two-dimensional arrays *)

Lemma for_loop_invariant {St : Type} (Inv : Z -> St -> Prop) lo hi body (st : St) :
  lo <= hi ->
  Inv lo st ->
  (forall i s, lo <= i < hi -> Inv i s -> Inv (i + 1) (body s i)) ->
  Inv hi (for_loop lo hi body st).
Proof.
  intros Hle H0 Hstep. unfold for_loop.
  assert (G : forall k : nat, Z.of_nat k <= hi - lo ->
            Inv (lo + Z.of_nat k) (foldl body st (seqZ lo (Z.of_nat k)))).
  { induction k as [|k IH]; intros Hk.
    - simpl. by rewrite Z.add_0_r.
    - rewrite seqZ_S, foldl_snoc.
      replace (lo + Z.of_nat (S k)) with (lo + Z.of_nat k + 1) by lia.
      apply Hstep; [lia|]. apply IH. lia. }
  specialize (G (Z.to_nat (hi - lo))).
  rewrite Z2Nat.id in G by lia.
  replace (lo + (hi - lo)) with hi in G by lia. apply G. lia.
Qed.

Lemma cell_inj w i j i' j' :
  0 <= i -> 0 <= i' -> 0 <= j < w -> 0 <= j' < w ->
  cell w i j = cell w i' j' -> i = i' /\ j = j'.
Proof.
  unfold cell. intros Hi Hi' Hj Hj' E.
  assert (E' : i * w + j = i' * w + j') by nia.
  assert (i = i') by nia. split; [done|nia].
Qed.

Lemma cell_lt w h i j :
  0 <= i < h -> 0 <= j < w -> (cell w i j < Z.to_nat (h * w))%nat.
Proof. unfold cell. intros Hi Hj. nia. Qed.

Lemma length_set2 w a i j v : length (set2 w a i j v) = length a.
Proof. apply length_insert. Qed.

Lemma get2_set2_eq w a i j v :
  (cell w i j < length a)%nat -> get2 w (set2 w a i j v) i j = v.
Proof. intros H. unfold get2, set2. by apply list_lookup_total_insert_eq. Qed.

Lemma get2_set2_ne w a i j v i' j' :
  0 <= i -> 0 <= i' -> 0 <= j < w -> 0 <= j' < w ->
  (i, j) <> (i', j') ->
  get2 w (set2 w a i j v) i' j' = get2 w a i' j'.
Proof.
  intros Hi Hi' Hj Hj' Hne. unfold get2, set2.
  apply list_lookup_total_insert_ne. intros E.
  apply cell_inj in E as [-> ->]; done.
Qed.

Lemma length_memcpy dst doff src soff n :
  length (memcpy dst doff src soff n) = length dst.
Proof. apply length_inserts. Qed.

Lemma memcpy_outside dst doff src soff n (k : nat) :
  (k < doff \/ doff + Z.to_nat n <= k)%nat ->
  memcpy dst doff src soff n !!! k = dst !!! k.
Proof.
  unfold memcpy. intros [Hk|Hk].
  - by apply list_lookup_total_inserts_lt.
  - apply list_lookup_total_inserts_ge. rewrite length_take. lia.
Qed.

Lemma memcpy_inside dst doff src soff n (k : nat) :
  (doff <= k < doff + Z.to_nat n)%nat ->
  (soff + Z.to_nat n <= length src)%nat ->
  (doff + Z.to_nat n <= length dst)%nat ->
  memcpy dst doff src soff n !!! k = src !!! (soff + (k - doff))%nat.
Proof.
  unfold memcpy. intros Hk Hs Hd.
  rewrite list_lookup_total_inserts
    by (rewrite ?length_take, ?length_drop; lia).
  rewrite lookup_total_take_lt by lia.
  by rewrite lookup_total_drop.
Qed.

(** ** The tile after the initial load *)

Section Fill.

Context (n cols : Z) (inner tile0 : list Z).

Hypothesis n_range : 1 <= n <= INT_MAX - 2.
Hypothesis cols_range : 1 <= cols <= INT_MAX - 2.
Hypothesis tile0_length : length tile0 = Z.to_nat ((n + 2) * (cols + 2)).
Hypothesis inner_length : length inner = Z.to_nat (n * cols).

Local Abbreviation w := (cols + 2).
Local Abbreviation full := (Z.to_nat ((n + 2) * (cols + 2))).

Local Abbreviation copied := (fill_copied n cols inner tile0).
Local Abbreviation with_columns := (fill_with_columns n cols inner tile0).
Local Abbreviation with_rows := (fill_with_rows n cols inner tile0).

Lemma fill_tile_loops : fill_tile n cols inner tile0 = with_rows.
Proof.
  unfold fill_tile, fill_with_rows, fill_with_columns, fill_copied.
  rewrite !int_add_small by (unfold is_int, INT_MIN, INT_MAX in *; lia).
  reflexivity.
Qed.

Lemma copied_spec :
  length copied = full /\
  forall i j, 0 <= i < n -> 0 <= j < cols ->
    get2 w copied (i + 1) (j + 1) = inner !!! cell cols i j.
Proof.
  unfold fill_copied.
  apply (for_loop_invariant (fun k t =>
    length t = full /\
    forall i j, 0 <= i < k -> 0 <= j < cols ->
      get2 w t (i + 1) (j + 1) = inner !!! cell cols i j)); [lia| |].
  - split; [done|]. intros; lia.
  - intros k t Hk [Hlen Hcells]. split; [by rewrite length_memcpy|].
    intros i j Hi Hj. unfold get2.
    destruct (Z.eq_dec i k) as [->|Hne].
    + rewrite memcpy_inside; unfold cell; rewrite ?Hlen, ?inner_length; [|nia..].
      f_equal. nia.
    + rewrite memcpy_outside by (unfold cell; nia).
      apply Hcells; lia.
Qed.

Lemma with_columns_spec :
  length with_columns = full /\
  (forall i j, 0 <= i < n + 2 -> 1 <= j <= cols ->
     get2 w with_columns i j = get2 w copied i j) /\
  (forall i, 1 <= i <= n ->
     get2 w with_columns i 0 = get2 w with_columns i 1 /\
     get2 w with_columns i (cols + 1) = get2 w with_columns i cols).
Proof.
  destruct copied_spec as [Hlen0 _].
  cut (length with_columns = full /\
    (forall i j, 0 <= i < n + 2 -> 1 <= j <= cols ->
       get2 w with_columns i j = get2 w copied i j) /\
    (forall i, 1 <= i < n + 1 ->
       get2 w with_columns i 0 = get2 w with_columns i 1 /\
       get2 w with_columns i (cols + 1) = get2 w with_columns i cols)).
  { intros (H1 & H2 & H3). split; [done|]. split; [done|].
    intros i Hi. apply H3. lia. }
  unfold fill_with_columns.
  apply (for_loop_invariant (fun k t =>
    length t = full /\
    (forall i j, 0 <= i < n + 2 -> 1 <= j <= cols ->
       get2 w t i j = get2 w copied i j) /\
    (forall i, 1 <= i < k ->
       get2 w t i 0 = get2 w t i 1 /\
       get2 w t i (cols + 1) = get2 w t i cols))); [lia| |].
  - split; [done|]. split; [done|]. intros; lia.
  - intros k t Hk (Hlen & Hin & Hcol). cbv zeta.
    assert (Hc0 : (cell w k 0 < length t)%nat)
      by (rewrite Hlen; apply cell_lt; lia).
    assert (Hc1 : (cell w k (cols + 1) < length (set2 w t k 0 (get2 w t k 1)))%nat)
      by (rewrite length_set2, Hlen; apply cell_lt; lia).
    split; [by rewrite !length_set2|]. split.
    + intros i j Hi Hj.
      rewrite !get2_set2_ne by (lia || (intros [= ]; lia)).
      by apply Hin.
    + intros i Hi. destruct (Z.eq_dec i k) as [->|Hne].
      * split.
        -- rewrite get2_set2_ne by (lia || (intros [= ]; lia)).
           rewrite get2_set2_eq by done.
           by rewrite !get2_set2_ne by (lia || (intros [= ]; lia)).
        -- rewrite get2_set2_eq by done.
           by rewrite !get2_set2_ne by (lia || (intros [= ]; lia)).
      * rewrite !get2_set2_ne by (lia || (intros [= ]; lia)).
        apply Hcol. lia.
Qed.

Lemma with_rows_spec :
  length with_rows = full /\
  (forall i j, 1 <= i <= n -> 0 <= j < cols + 2 ->
     get2 w with_rows i j = get2 w with_columns i j) /\
  (forall j, 0 <= j < cols + 2 ->
     get2 w with_rows 0 j = get2 w with_rows 1 j /\
     get2 w with_rows (n + 1) j = get2 w with_rows n j).
Proof.
  destruct with_columns_spec as [Hlen0 _].
  assert (G : length with_rows = full /\
    (forall i j, 1 <= i <= n -> 0 <= j < cols + 2 ->
       get2 w with_rows i j = get2 w with_columns i j) /\
    (forall j, 0 <= j < cols + 2 ->
       get2 w with_rows 0 j = get2 w with_columns 1 j /\
       get2 w with_rows (n + 1) j = get2 w with_columns n j)).
  { unfold fill_with_rows. apply (for_loop_invariant (fun k t =>
      length t = full /\
      (forall i j, 1 <= i <= n -> 0 <= j < cols + 2 ->
         get2 w t i j = get2 w with_columns i j) /\
      (forall j, 0 <= j < k ->
         get2 w t 0 j = get2 w with_columns 1 j /\
         get2 w t (n + 1) j = get2 w with_columns n j))); [lia| |].
    - split; [done|]. split; [done|]. intros; lia.
    - intros k t Hk (Hlen & Hin & Hrow). cbv zeta.
      assert (Hc0 : (cell w 0 k < length t)%nat)
        by (rewrite Hlen; apply cell_lt; lia).
      assert (Hc1 : (cell w (n + 1) k < length (set2 w t 0 k (get2 w t 1 k)))%nat)
        by (rewrite length_set2, Hlen; apply cell_lt; lia).
      split; [by rewrite !length_set2|]. split.
      + intros i j Hi Hj.
        rewrite !get2_set2_ne by (lia || (intros [= ]; lia)).
        by apply Hin.
      + intros j Hj. destruct (Z.eq_dec j k) as [->|Hne].
        * split.
          -- rewrite get2_set2_ne by (lia || (intros [= ]; lia)).
             rewrite get2_set2_eq by done. apply Hin; lia.
          -- rewrite get2_set2_eq by done.
             rewrite get2_set2_ne by (lia || (intros [= ]; lia)).
             apply Hin; lia.
        * rewrite !get2_set2_ne by (lia || (intros [= ]; lia)).
          apply Hrow. lia. }
  destruct G as (Hlen & Hin & Hrow).
  split; [done|]. split; [done|].
  intros j Hj. destruct (Hrow j Hj) as [E0 E1].
  rewrite E0, E1, !Hin by lia. done.
Qed.

(** The tile [fill_tile] leaves: its interior is the block received, every
    ghost column repeats the interior column next to it, and every ghost row
    repeats, over the whole padded width, the row next to it. *)
Lemma fill_tile_spec :
  let t := fill_tile n cols inner tile0 in
  length t = full /\
  (forall i j, 0 <= i < n -> 0 <= j < cols ->
     get2 w t (i + 1) (j + 1) = inner !!! cell cols i j) /\
  (forall i, 1 <= i <= n ->
     get2 w t i 0 = get2 w t i 1 /\ get2 w t i (cols + 1) = get2 w t i cols) /\
  (forall j, 0 <= j <= cols + 1 ->
     get2 w t 0 j = get2 w t 1 j /\ get2 w t (n + 1) j = get2 w t n j).
Proof.
  cbv zeta. rewrite fill_tile_loops.
  destruct copied_spec as [_ Hcopy].
  destruct with_columns_spec as (_ & Hkeep & Hcol).
  destruct with_rows_spec as (Hlen & Hin & Hrow).
  split; [done|]. split; [|split].
  - intros i j Hi Hj. rewrite Hin, Hkeep by lia. by apply Hcopy.
  - intros i Hi. rewrite !Hin by lia. by apply Hcol.
  - intros j Hj. apply Hrow. lia.
Qed.

End Fill.


(** ** The initial load *)

Lemma length_MPI_Scatter sendbuf n recvbuf r :
  length (MPI_Scatter sendbuf n recvbuf r) = length recvbuf.
Proof. unfold MPI_Scatter. destruct (n <? 0); [done|apply length_inserts]. Qed.

(** What [read_field] returns when the header scan assigns both numbers. *)
Lemma read_field_unfold junk scan_lf t1 t2 P r text rows cols body :
  fscanf_header text =
    {| count := 2; nx_read := Some rows; ny_read := Some cols; rest := body |} ->
  1 <= Z.quot rows P <= INT_MAX - 2 -> 1 <= cols <= INT_MAX - 2 ->
  let lrows := Z.quot rows P in
  let inner :=
    MPI_Scatter (fst (read_values scan_lf rows cols body (malloc_2d junk rows cols)))
                (int_mul lrows cols) (malloc_2d junk lrows cols) r in
  let T := {| nx := lrows; ny := cols; nx_full := rows; ny_full := cols;
              data := fill_tile lrows cols inner
                        (malloc_2d junk (lrows + 2) (cols + 2)) |} in
  read_field junk scan_lf t1 t2 P r (Some text) =
    ([Scatter_call (int_mul lrows cols)],
     Done (T, T, {| size := P; rank := r |})).
Proof.
  intros Hh Hn Hc. cbv zeta.
  unfold read_field, fopen. rewrite Hh. cbn [count nx_read ny_read rest].
  change (2 <? 2) with false. cbv iota.
  unfold copy_field, set_field_dimensions, parallel_setup;
    cbn [nx ny nx_full ny_full data size rank].
  rewrite !int_add_small by (unfold is_int, INT_MIN, INT_MAX in *; lia).
  reflexivity.
Qed.

(** C7: after [read_field] on a well-formed input the two tiles are the same,
    the interior of the tile is the block received from the scatter, every
    ghost column repeats the interior column next to it, every ghost row
    repeats over the full padded width the interior row next to it, and,
    rows being set after columns, each corner holds the value the column
    mirroring left in the row next to it. *)
Theorem read_field_ghost_cells junk scan_lf t1 t2 P r text rows cols body :
  fscanf_header text =
    {| count := 2; nx_read := Some rows; ny_read := Some cols; rest := body |} ->
  1 <= Z.quot rows P <= INT_MAX - 2 -> 1 <= cols <= INT_MAX - 2 ->
  let lrows := Z.quot rows P in
  let inner :=
    MPI_Scatter (fst (read_values scan_lf rows cols body (malloc_2d junk rows cols)))
                (int_mul lrows cols) (malloc_2d junk lrows cols) r in
  exists T : field,
    read_field junk scan_lf t1 t2 P r (Some text) =
      ([Scatter_call (int_mul lrows cols)],
       Done (T, T, {| size := P; rank := r |})) /\
    nx T = lrows /\ ny T = cols /\
    length (data T) = Z.to_nat ((lrows + 2) * (cols + 2)) /\
    let cell_of i j := get2 (cols + 2) (data T) i j in
    (forall i j, 0 <= i < lrows -> 0 <= j < cols ->
       cell_of (i + 1) (j + 1) = inner !!! cell cols i j) /\
    (forall i, 1 <= i <= lrows ->
       cell_of i 0 = cell_of i 1 /\ cell_of i (cols + 1) = cell_of i cols) /\
    (forall j, 0 <= j <= cols + 1 ->
       cell_of 0 j = cell_of 1 j /\ cell_of (lrows + 1) j = cell_of lrows j) /\
    cell_of 0 0 = cell_of 1 1 /\
    cell_of 0 (cols + 1) = cell_of 1 cols /\
    cell_of (lrows + 1) 0 = cell_of lrows 1 /\
    cell_of (lrows + 1) (cols + 1) = cell_of lrows cols.
Proof.
  intros Hh Hn Hc lrows inner.
  pose proof (read_field_unfold junk scan_lf t1 t2 P r text rows cols body Hh Hn Hc)
    as E. cbv zeta in E. fold lrows in E. fold inner in E.
  eexists. split; [exact E|]. cbn [nx ny data].
  destruct (fill_tile_spec lrows cols inner (malloc_2d junk (lrows + 2) (cols + 2)))
    as (Hlen & Hin & Hcol & Hrow); [done|done|apply length_malloc_2d| |].
  { unfold inner. by rewrite length_MPI_Scatter, length_malloc_2d. }
  split; [done|]. split; [done|]. split; [done|]. cbv zeta.
  split; [done|]. split; [done|]. split; [done|].
  destruct (Hrow 0 ltac:(lia)) as [R0 R0'].
  destruct (Hrow (cols + 1) ltac:(lia)) as [R1 R1'].
  destruct (Hcol 1 ltac:(lia)) as [C1 C1'].
  destruct (Hcol lrows ltac:(lia)) as [Cn Cn'].
  split_and!; congruence.
Qed.

Lemma read_field_ghost_cells_witness :
  exists T : field,
    read_field no_junk sample_scan_lf blank_field blank_field 2 1
        (Some grid_4_3_text) =
      ([Scatter_call 6], Done (T, T, {| size := 2; rank := 1 |})) /\
    get2 5 (data T) 0 0 = get2 5 (data T) 1 1 /\
    get2 5 (data T) 3 4 = get2 5 (data T) 2 3.
Proof.
  destruct (read_field_ghost_cells no_junk sample_scan_lf blank_field blank_field
              2 1 grid_4_3_text 4 3 (rest (fscanf_header grid_4_3_text)))
    as (T & E & _ & _ & _ & H).
  - reflexivity.
  - vm_compute. split; discriminate.
  - vm_compute. split; discriminate.
  - cbv zeta in H. destruct H as (_ & _ & _ & H00 & _ & _ & H34).
    exists T. split; [exact E|]. split; [exact H00|exact H34].
Defined.

(** C5, as the code has it: when the header scan assigns fewer than two
    integers, [read_field] ends in [MPI_Abort(MPI_COMM_WORLD, -1)] and has
    issued no collective call before: no scatter, no allocation and
    distribution of the field. *)
Theorem read_field_aborts_on_short_scan junk scan_lf t1 t2 P r text :
  count (fscanf_header text) < 2 ->
  read_field junk scan_lf t1 t2 P r (Some text) = ([], Aborted (-1)).
Proof.
  intros Hc. unfold read_field, fopen.
  destruct (Z.ltb_spec (count (fscanf_header text)) 2); [done|lia].
Qed.

Lemma read_field_aborts_on_short_scan_witness :
  count (fscanf_header short_header_text) < 2 /\
  read_field no_junk sample_scan_lf blank_field blank_field 2 1
      (Some short_header_text) = ([], Aborted (-1)).
Proof.
  split; [reflexivity|].
  apply read_field_aborts_on_short_scan. reflexivity.
Defined.

(** C5 as stated fails: the scan of the header is not confined to the first
    line.  When the first line is [# 3] and the next line starts with a
    number, [%d] skips the line break and takes the digits up to the decimal
    point as the second integer; two integers are assigned, no abort happens,
    and the scatter is issued for a grid of 3 rows and 1 column. *)
Lemma read_field_header_scan_crosses_lines :
  fscanf_header short_header_then_values =
    {| count := 2; nx_read := Some 3; ny_read := Some 1;
       rest := ".0 2.0 3.0" ++ newline |} /\
  read_field no_junk sample_scan_lf blank_field blank_field 1 0
      (Some short_header_then_values) =
    let T := {| nx := 3; ny := 1; nx_full := 3; ny_full := 1;
                data := [0; 0; 0; 0; 0; 0; 2; 2; 2; 3; 3; 3; 3; 3; 3] |} in
    ([Scatter_call 3], Done (T, T, {| size := 1; rank := 0 |})).
Proof. split; reflexivity. Qed.

(** C9: where the file cannot be opened, [read_field] does not reach
    [MPI_Abort]: the null [FILE *] goes to [fscanf], which has no defined
    behaviour. *)
Theorem read_field_unopened_file junk scan_lf t1 t2 P r :
  read_field junk scan_lf t1 t2 P r None = ([], Undefined) /\
  read_field junk scan_lf t1 t2 P r None <> ([], Aborted (-1)).
Proof. split; [reflexivity|discriminate]. Qed.

(** ** The gather for the snapshot *)

(** io.c:34-36 and 51-53: the interior rows of a tile, copied row by row to
    the start of a buffer of rows [nyl] wide. *)
Lemma interior_rows_copied nxl nyl (src dst : list Z) :
  0 <= nxl -> 0 <= nyl ->
  length src = Z.to_nat ((nxl + 2) * (nyl + 2)) ->
  (Z.to_nat (nxl * nyl) <= length dst)%nat ->
  let res := for_loop 0 nxl (fun buf i =>
               memcpy buf (cell nyl i 0) src (cell (nyl + 2) (i + 1) 1) nyl) dst in
  length res = length dst /\
  forall i j, 0 <= i < nxl -> 0 <= j < nyl ->
    res !!! cell nyl i j = get2 (nyl + 2) src (i + 1) (j + 1).
Proof.
  intros Hx Hy Hsrc Hdst. cbv zeta.
  apply (for_loop_invariant (fun k buf =>
    length buf = length dst /\
    forall i j, 0 <= i < k -> 0 <= j < nyl ->
      buf !!! cell nyl i j = get2 (nyl + 2) src (i + 1) (j + 1))); [lia| |].
  - split; [done|]. intros; lia.
  - intros k buf Hk [Hlen Hcells]. split; [by rewrite length_memcpy|].
    intros i j Hi Hj. destruct (Z.eq_dec i k) as [->|Hne].
    + rewrite memcpy_inside; unfold get2, cell; rewrite ?Hlen, ?Hsrc; [|nia..].
      f_equal. nia.
    + rewrite memcpy_outside by (unfold cell; nia).
      apply Hcells; lia.
Qed.

Section Gather.

Context (junk : nat -> Z) (P nxl nyl : Z) (tiles : Z -> field).

Hypothesis P_pos : 1 <= P.
Hypothesis nxl_nonneg : 0 <= nxl.
Hypothesis nyl_nonneg : 0 <= nyl.
Hypothesis rows_fit : P * nxl <= INT_MAX.
Hypothesis cells_fit : nxl * nyl <= INT_MAX.
Hypothesis uniform : forall p, 0 <= p < P ->
  nx (tiles p) = nxl /\ ny (tiles p) = nyl /\
  length (data (tiles p)) = Z.to_nat ((nxl + 2) * (nyl + 2)).

Local Abbreviation interior p i j :=
  (get2 (nyl + 2) (data (tiles p)) (i + 1) (j + 1)).

Lemma tile_cells_int : is_int (nxl * nyl).
Proof. unfold is_int, INT_MIN, INT_MAX in *. nia. Qed.

(** The message of a rank: its interior, row by row. *)
Lemma write_field_message_spec p :
  0 <= p < P ->
  length (write_field_message junk (tiles p)) = Z.to_nat (nxl * nyl) /\
  forall i j, 0 <= i < nxl -> 0 <= j < nyl ->
    write_field_message junk (tiles p) !!! cell nyl i j = interior p i j.
Proof.
  intros Hp. destruct (uniform p Hp) as (Hx & Hy & Hl).
  unfold write_field_message. rewrite Hx, Hy.
  rewrite int_mul_small by apply tile_cells_int.
  destruct (interior_rows_copied nxl nyl (data (tiles p)) (malloc_2d junk nxl nyl))
    as [Hlen Hcells]; [done|done|done|by rewrite length_malloc_2d|].
  rewrite length_malloc_2d in Hlen.
  rewrite take_ge by lia. by split.
Qed.

(** C8, for tiles of one size, [local_rows] by [local_cols] interior cells
    on every rank, with [P*local_rows] and [local_rows*local_cols] within
    the [int] range: rank 0 hands to the encoder a buffer of [P*local_rows]
    by [local_cols] cells, which is [rows_full] by [cols_full] when the rows
    divide evenly; in it, for every rank [p], the rows [p*local_rows ..
    (p+1)*local_rows - 1] are the interior of the tile of [p], ghost layers
    left out. *)
Theorem write_field_gathers_in_rank_order :
  exists png,
    write_field junk tiles {| size := P; rank := 0 |} = Done (Some png) /\
    png_height png = P * nxl /\
    png_width png = nyl /\
    (nx_full (tiles 0) = P * nxl -> png_height png = nx_full (tiles 0)) /\
    (ny_full (tiles 0) = nyl -> png_width png = ny_full (tiles 0)) /\
    length (png_data png) = Z.to_nat (P * nxl * nyl) /\
    forall p i j, 0 <= p < P -> 0 <= i < nxl -> 0 <= j < nyl ->
      get2 (png_width png) (png_data png) (p * nxl + i) j = interior p i j.
Proof.
  destruct (uniform 0 ltac:(lia)) as (Hx & Hy & Hl).
  pose proof tile_cells_int as Hcells_int.
  unfold write_field. cbn [rank size]. change (0 =? 0) with true. cbv iota.
  rewrite Hx, Hy.
  rewrite (int_mul_small nxl P) by (unfold is_int, INT_MIN, INT_MAX in *; nia).
  rewrite (int_mul_small nxl nyl) by done.
  destruct (interior_rows_copied nxl nyl (data (tiles 0))
              (malloc_2d junk (nxl * P) nyl))
    as [Hlen0 Hown]; [done|done|done|rewrite length_malloc_2d; nia|].
  rewrite length_malloc_2d in Hlen0.
  set (own := for_loop 0 nxl _ _) in *.
  set (body := fun st p => _).
  assert (G : exists full tmp,
    for_loop 1 P body (Some (own, malloc_2d junk nxl nyl)) = Some (full, tmp) /\
    length full = Z.to_nat (nxl * P * nyl) /\
    length tmp = Z.to_nat (nxl * nyl) /\
    forall p i j, 0 <= p < P -> 0 <= i < nxl -> 0 <= j < nyl ->
      full !!! cell nyl (p * nxl + i) j = interior p i j).
  { apply (for_loop_invariant (fun k st =>
      exists full tmp, st = Some (full, tmp) /\
      length full = Z.to_nat (nxl * P * nyl) /\
      length tmp = Z.to_nat (nxl * nyl) /\
      forall p i j, 0 <= p < k -> 0 <= i < nxl -> 0 <= j < nyl ->
        full !!! cell nyl (p * nxl + i) j = interior p i j)); [lia| |].
    - exists own, (malloc_2d junk nxl nyl).
      split; [done|]. split; [done|]. split; [apply length_malloc_2d|].
      intros p i j Hp Hi Hj. replace p with 0 by lia.
      rewrite Z.mul_0_l, Z.add_0_l. by apply Hown.
    - intros k st Hk (full & tmp & -> & Hfull & Htmp & Hdone).
      destruct (write_field_message_spec k ltac:(lia)) as [Hmlen Hmsg].
      unfold body, MPI_Recv.
      destruct (Nat.leb_spec (length (write_field_message junk (tiles k)))
                  (Z.to_nat (nxl * nyl))) as [_|Hbad]; [|lia].
      assert (Erecv : list_inserts 0 (write_field_message junk (tiles k)) tmp =
                      write_field_message junk (tiles k)).
      { rewrite <- (app_nil_r tmp).
        rewrite list_inserts_0_r by lia. apply app_nil_r. }
      rewrite Erecv.
      rewrite (int_mul_small k nxl) by (unfold is_int, INT_MIN, INT_MAX in *; nia).
      eexists _, _. split; [reflexivity|].
      split; [by rewrite length_memcpy|]. split; [done|].
      intros p i j Hp Hi Hj. destruct (Z.eq_dec p k) as [->|Hne].
      + rewrite memcpy_inside; unfold cell; rewrite ?Hfull, ?Hmlen; [|nia..].
        rewrite <- Hmsg by done. unfold cell. f_equal. nia.
      + rewrite memcpy_outside by (unfold cell; nia).
        apply Hdone; lia. }
  destruct G as (full & tmp & -> & Hfull & Htmp & Hall).
  eexists. split; [reflexivity|]. cbn [png_height png_width png_data].
  split; [lia|]. split; [done|].
  split; [intros ->; lia|]. split; [by intros ->|].
  split; [rewrite Hfull; f_equal; lia|].
  intros p i j Hp Hi Hj. unfold get2. by apply Hall.
Qed.

End Gather.

Lemma write_field_gathers_in_rank_order_witness :
  exists png,
    write_field no_junk gather_tile {| size := 2; rank := 0 |} = Done (Some png) /\
    png_height png = 4 /\ png_width png = 2 /\
    get2 (png_width png) (png_data png) (1 * 2 + 1) 0 =
      get2 4 (data (gather_tile 1)) 2 1.
Proof.
  destruct (write_field_gathers_in_rank_order no_junk 2 2 2 gather_tile)
    as (png & E & Hh & Hw & _ & _ & _ & Hcells).
  - lia.
  - lia.
  - lia.
  - vm_compute. discriminate.
  - vm_compute. discriminate.
  - intros p Hp. split; [reflexivity|]. split; [reflexivity|].
    unfold gather_tile; cbn [data]. by rewrite length_map, length_seqZ.
  - exists png. split; [exact E|]. split; [exact Hh|]. split; [exact Hw|].
    apply (Hcells 1 1 0); lia.
Defined.

(** C8 as stated, for every choice of interior row counts, fails: with two
    interior rows on rank 0 and one on rank 1, the buffer has four rows for
    a grid of three, the block of rank 1 is the interior row of rank 1
    followed by a row that no tile holds, whatever the allocator left
    there. *)
Lemma write_field_uneven_rows :
  write_field other_junk shrinking_tile {| size := 2; rank := 0 |} =
    Done (Some {| png_data := [4; 7; 104; 778];
                  png_height := 4; png_width := 1 |}) /\
  write_field no_junk shrinking_tile {| size := 2; rank := 0 |} =
    Done (Some {| png_data := [4; 7; 104; 0];
                  png_height := 4; png_width := 1 |}) /\
  nx_full (shrinking_tile 0) = 3 /\
  nx (shrinking_tile 0) = 2 /\ nx (shrinking_tile 1) = 1.
Proof. by vm_compute. Qed.

(** * Further properties of the code *)

(** ** The checkpoint file as a whole *)

Section CheckpointFile.

Context (P rows cols : Z).

Hypothesis P_pos : 0 < P.
Hypothesis rows_int : 0 <= rows <= INT_MAX.
Hypothesis cols_int : 0 <= cols <= INT_MAX.
Hypothesis fits :
  header_bytes + P * tile_bytes (Z.quot rows P) cols <= INT_MAX.

Local Abbreviation T := (tile_bytes (Z.quot rows P) cols).
Local Abbreviation total := (Z.to_nat (header_bytes + P * T)).






End CheckpointFile.

(** ** One process at the file *)





(** X5: when the 32-bit offset of a process of rank other than 0 has wrapped
    to a negative value, its collective write fails, the value the call
    returns is not looked at, and [write_restart] returns with the file as it
    was: the tile is not in the checkpoint. *)
Theorem write_restart_negative_offset t par iter fs :
  rank par <> 0 ->
  write_restart_disp (rank par) (nx t) (ny t) < 0 ->
  write_restart t par iter fs = Some (default [] fs).
Proof.
  intros Hr Hd. unfold write_restart, MPI_File_write_at_all,
    MPI_File_open_create_wronly, pwrite.
  destruct (Z.eqb_spec (rank par) 0) as [|_]; [done|].
  destruct (restart_size (nx t) (ny t) <? 0); [done|].
  cbn [contents].
  by destruct (Z.ltb_spec (write_restart_disp (rank par) (nx t) (ny t)) 0); [|lia].
Qed.

Lemma write_restart_negative_offset_witness :
  write_restart_disp 1 16382 16382 < 0 /\
  write_restart square_tile {| size := 2; rank := 1 |} 7 (Some [1; 2; 3]) =
    Some [1; 2; 3].
Proof.
  split; [reflexivity|].
  apply (write_restart_negative_offset square_tile {| size := 2; rank := 1 |} 7
           (Some [1; 2; 3])).
  - discriminate.
  - reflexivity.
Defined.

(** ** Restarting from a file that is not a whole checkpoint *)

Lemma MPI_File_read_all_int_cases fp :
  0 <= pointer fp ->
  MPI_File_read_all_int fp = (None, fp) \/
  exists v,
    MPI_File_read_all_int fp =
      (Some v, {| contents := contents fp; pointer := pointer fp + 4 |}) /\
    (Z.to_nat (pointer fp) + 4 <= length (contents fp))%nat.
Proof.
  intros Hp. unfold MPI_File_read_all_int.
  destruct (Nat.eqb_spec (length (segment (contents fp) (Z.to_nat (pointer fp)) 4)) 4)
    as [E|E]; [right|by left].
  eexists. split; [reflexivity|].
  unfold segment in E. rewrite length_take, length_drop in E. lia.
Qed.

(** X6: [read_restart] does not look at what its reads return.  On a file
    that is missing, or too short to hold the first two integers of the
    header, it goes on with [rows] or [cols] unassigned.  On a file that
    ends after these two integers, [rows] and [cols] are assigned and the
    third read delivers nothing: a restart on a process count that divides
    the rows returns normally, with the iteration number [*iter] held at
    the call. *)
Theorem read_restart_without_header junk scratch Q r iter0 fs :
  ((length (default [] fs) < 8)%nat ->
   read_restart junk scratch Q r iter0 fs = Undefined) /\
  (forall f, fs = Some f -> length f = 8%nat ->
     0 < Q -> 0 <= decode_int (segment f 0 4) ->
     0 <= decode_int (segment f 4 4) ->
     Z.rem (decode_int (segment f 0 4)) Q = 0 ->
     exists tile,
       read_restart junk scratch Q r iter0 fs =
         Done (tile, {| size := Q; rank := r |}, iter0) /\
       nx_full tile = decode_int (segment f 0 4) /\
       ny_full tile = decode_int (segment f 4 4)).
Proof.
  split.
  - intros Hlen. destruct fs as [f|]; [|reflexivity].
    cbn [default from_option id] in Hlen.
    unfold read_restart, MPI_File_open_rdonly. cbv beta iota.
    destruct (MPI_File_read_all_int_cases {| contents := f; pointer := 0 |})
      as [->|(v0 & -> & H0)]; [done| |]; cbn [contents pointer] in *.
    + destruct (MPI_File_read_all_int _) as [c fp1].
      by destruct (MPI_File_read_all_int _) as [i fp2].
    + destruct (MPI_File_read_all_int_cases {| contents := f; pointer := 0 + 4 |})
        as [->|(v1 & -> & H1)]; [done| |]; cbn [contents pointer] in *; [|lia].
      by destruct (MPI_File_read_all_int _) as [i fp2].
  - intros f -> Hlen HQ Hrows Hcols Hdiv.
    unfold read_restart, MPI_File_open_rdonly, MPI_File_read_all_int.
    cbn [contents pointer].
    assert (L : forall o, (o + 4 <= 8)%nat -> length (segment f o 4) = 4%nat).
    { intros o Ho. unfold segment. rewrite length_take, length_drop. lia. }
    assert (L8 : length (segment f 8 4) = 0%nat).
    { unfold segment. rewrite length_take, length_drop. lia. }
    change (Z.to_nat 0) with 0%nat. rewrite (L 0%nat) by lia.
    cbn [Nat.eqb contents pointer].
    change (Z.to_nat (0 + sizeof_int)) with 4%nat. rewrite (L 4%nat) by lia.
    cbn [Nat.eqb contents pointer].
    change (Z.to_nat (0 + sizeof_int + sizeof_int)) with 8%nat.
    rewrite L8. cbn [Nat.eqb default from_option].
    eexists. split; [reflexivity|]. done.
Qed.

Lemma read_restart_without_header_witness :
  read_restart no_junk blank_field 2 0 41 (Some [2; 0; 0; 0; 1; 0]) = Undefined /\
  exists tile,
    read_restart no_junk blank_field 2 0 41 (Some [2; 0; 0; 0; 1; 0; 0; 0]) =
      Done (tile, {| size := 2; rank := 0 |}, 41).
Proof.
  split.
  - apply (read_restart_without_header no_junk blank_field 2 0 41
             (Some [2; 0; 0; 0; 1; 0])).
    vm_compute. lia.
  - destruct (read_restart_without_header no_junk blank_field 2 0 41
                (Some [2; 0; 0; 0; 1; 0; 0; 0])) as [_ H].
    destruct (H [2; 0; 0; 0; 1; 0; 0; 0]) as (tile & E & _).
    + reflexivity.
    + reflexivity.
    + lia.
    + by vm_compute.
    + by vm_compute.
    + reflexivity.
    + by exists tile.
Defined.

(** X7: a file that has the header but no byte at the offset of the process
    (or an offset that has wrapped to a negative value) is no error for
    [read_restart]: it returns normally, and the tile it returns is the
    memory as the allocator left it. *)
Theorem read_restart_without_block junk scratch Q r iter0 rows cols iter tail :
  is_int rows -> is_int cols -> is_int iter ->
  let f := header_image rows cols iter ++ tail in
  let lrows := Z.quot rows Q in
  (read_restart_disp r lrows cols < 0 \/
   (length f <= Z.to_nat (read_restart_disp r lrows cols))%nat) ->
  read_restart junk scratch Q r iter0 (Some f) =
    Done ({| nx := lrows; ny := cols; nx_full := rows; ny_full := cols;
             data := malloc_2d junk (lrows + 2) (cols + 2) |},
          {| size := Q; rank := r |}, iter).
Proof.
  intros Hr Hc Hi f lrows. subst f lrows. intros Hcase.
  destruct (header_read rows cols iter tail Hr Hc Hi) as (E0 & E4 & E8).
  unfold read_restart, MPI_File_open_rdonly. cbv beta iota.
  rewrite E0, E4, E8. cbn [default from_option].
  unfold parallel_setup, set_field_dimensions, allocate_field;
    cbn [nx ny nx_full ny_full data size rank].
  do 3 f_equal. unfold MPI_File_read_at_all; cbn [contents].
  destruct (Z.ltb_spec (read_restart_disp r (Z.quot rows Q) cols) 0) as [|Hnn];
    [done|].
  destruct (restart_size (Z.quot rows Q) cols <? 0); [done|]. cbn [orb].
  destruct Hcase as [|Hshort]; [lia|].
  rewrite drop_ge by done. cbn [length].
  by rewrite Nat.min_0_r.
Qed.

Lemma read_restart_without_block_witness :
  exists tile,
    read_restart no_junk blank_field 2 1 0 (Some (header_image 2 1 7)) =
      Done (tile, {| size := 2; rank := 1 |}, 7) /\
    data tile = replicate 9 0.
Proof.
  pose proof (read_restart_without_block no_junk blank_field 2 1 0 2 1 7 []) as H.
  cbv zeta in H. rewrite app_nil_r in H.
  eexists. split.
  - apply H; [vm_compute; split; discriminate..|].
    right. vm_compute. lia.
  - reflexivity.
Defined.

(** ** More on the gather *)

Lemma length_write_field_message junk t :
  0 <= nx t -> 0 <= ny t -> is_int (nx t * ny t) ->
  length (data t) = Z.to_nat ((nx t + 2) * (ny t + 2)) ->
  length (write_field_message junk t) = Z.to_nat (nx t * ny t).
Proof.
  intros Hx Hy Hi Hl. unfold write_field_message.
  rewrite int_mul_small by done.
  destruct (interior_rows_copied (nx t) (ny t) (data t)
              (malloc_2d junk (nx t) (ny t)))
    as [Hlen _]; [done|done|done|by rewrite length_malloc_2d|].
  rewrite length_malloc_2d in Hlen. rewrite length_take. lia.
Qed.

(** X8: when the interior of some rank has more cells than the interior of
    rank 0, the receive of rank 0 for that rank fails with
    [MPI_ERR_TRUNCATE], and no buffer reaches the encoder. *)
Theorem write_field_larger_tile_aborts junk P (tiles : Z -> field) p :
  1 <= p < P ->
  0 <= nx (tiles p) -> 0 <= ny (tiles p) ->
  is_int (nx (tiles p) * ny (tiles p)) ->
  length (data (tiles p)) = Z.to_nat ((nx (tiles p) + 2) * (ny (tiles p) + 2)) ->
  0 <= nx (tiles 0) * ny (tiles 0) <= INT_MAX ->
  nx (tiles 0) * ny (tiles 0) < nx (tiles p) * ny (tiles p) ->
  write_field junk tiles {| size := P; rank := 0 |} = Aborted MPI_ERR_TRUNCATE.
Proof.
  intros Hp Hx Hy Hi Hl Hi0 Hlt.
  pose proof (length_write_field_message junk (tiles p) Hx Hy Hi Hl) as Hmsg.
  unfold write_field. cbn [rank size]. change (0 =? 0) with true. cbv iota.
  rewrite (int_mul_small (nx (tiles 0)) (ny (tiles 0)))
    by (unfold is_int, INT_MIN; lia).
  set (body := fun st q => _).
  set (start := Some _).
  assert (G : for_loop 1 P body start = None).
  { apply (for_loop_invariant (fun k st => p < k -> st = None) 1 P body start);
      [lia|lia| |lia].
    intros k st Hk IH Hpk. destruct (Z.eq_dec k p) as [->|Hne].
    - unfold body. destruct st as [[full tmp]|]; [|done].
      unfold MPI_Recv.
      destruct (Nat.leb_spec (length (write_field_message junk (tiles p)))
                  (Z.to_nat (nx (tiles 0) * ny (tiles 0)))); [lia|done].
    - rewrite IH by lia. done. }
  by rewrite G.
Qed.

Lemma write_field_larger_tile_aborts_witness :
  nx (uneven_tile 0) * ny (uneven_tile 0) < nx (uneven_tile 1) * ny (uneven_tile 1) /\
  write_field no_junk uneven_tile {| size := 2; rank := 0 |} =
    Aborted MPI_ERR_TRUNCATE.
Proof.
  split; [reflexivity|].
  apply (write_field_larger_tile_aborts no_junk 2 uneven_tile 1).
  - lia.
  - vm_compute. discriminate.
  - vm_compute. discriminate.
  - vm_compute. split; discriminate.
  - reflexivity.
  - vm_compute. split; discriminate.
  - reflexivity.
Defined.

Section GatheredBuffer.

Context (P nxl nyl : Z).

Hypothesis P_pos : 1 <= P.
Hypothesis nxl_nonneg : 0 <= nxl.
Hypothesis nyl_nonneg : 0 <= nyl.
Hypothesis rows_fit : P * nxl <= INT_MAX.
Hypothesis cells_fit : nxl * nyl <= INT_MAX.

Local Abbreviation uniform_tiles := (uniform_tiles_of P nxl nyl).

(** The buffer of rank 0 after the receive loop, cell by cell. *)
Lemma gathered_buffer junk tiles :
  uniform_tiles tiles ->
  exists full,
    write_field junk tiles {| size := P; rank := 0 |} =
      Done (Some {| png_data := full; png_height := nxl * P; png_width := nyl |}) /\
    length full = Z.to_nat (nxl * P * nyl) /\
    forall p i j, 0 <= p < P -> 0 <= i < nxl -> 0 <= j < nyl ->
      full !!! cell nyl (p * nxl + i) j =
        get2 (nyl + 2) (data (tiles p)) (i + 1) (j + 1).
Proof.
  intros uniform.
  destruct (uniform 0 ltac:(lia)) as (Hx & Hy & Hl).
  assert (Hcells_int : is_int (nxl * nyl))
    by (unfold is_int, INT_MIN, INT_MAX in *; nia).
  unfold write_field. cbn [rank size]. change (0 =? 0) with true. cbv iota.
  rewrite Hx, Hy.
  rewrite (int_mul_small nxl P) by (unfold is_int, INT_MIN, INT_MAX in *; nia).
  rewrite (int_mul_small nxl nyl) by done.
  destruct (interior_rows_copied nxl nyl (data (tiles 0))
              (malloc_2d junk (nxl * P) nyl))
    as [Hlen0 Hown]; [done|done|done|rewrite length_malloc_2d; nia|].
  rewrite length_malloc_2d in Hlen0.
  set (own := for_loop 0 nxl _ _) in *.
  set (body := fun st p => _).
  assert (G : exists full tmp,
    for_loop 1 P body (Some (own, malloc_2d junk nxl nyl)) = Some (full, tmp) /\
    length full = Z.to_nat (nxl * P * nyl) /\
    length tmp = Z.to_nat (nxl * nyl) /\
    forall p i j, 0 <= p < P -> 0 <= i < nxl -> 0 <= j < nyl ->
      full !!! cell nyl (p * nxl + i) j =
        get2 (nyl + 2) (data (tiles p)) (i + 1) (j + 1)).
  { apply (for_loop_invariant (fun k st =>
      exists full tmp, st = Some (full, tmp) /\
      length full = Z.to_nat (nxl * P * nyl) /\
      length tmp = Z.to_nat (nxl * nyl) /\
      forall p i j, 0 <= p < k -> 0 <= i < nxl -> 0 <= j < nyl ->
        full !!! cell nyl (p * nxl + i) j =
          get2 (nyl + 2) (data (tiles p)) (i + 1) (j + 1))); [lia| |].
    - exists own, (malloc_2d junk nxl nyl).
      split; [done|]. split; [done|]. split; [apply length_malloc_2d|].
      intros p i j Hp Hi Hj. replace p with 0 by lia.
      rewrite Z.mul_0_l, Z.add_0_l. by apply Hown.
    - intros k st Hk (full & tmp & -> & Hfull & Htmp & Hdone).
      destruct (write_field_message_spec junk P nxl nyl tiles nxl_nonneg
                  nyl_nonneg cells_fit uniform k ltac:(lia)) as [Hmlen Hmsg].
      unfold body, MPI_Recv.
      destruct (Nat.leb_spec (length (write_field_message junk (tiles k)))
                  (Z.to_nat (nxl * nyl))) as [_|Hbad]; [|lia].
      assert (Erecv : list_inserts 0 (write_field_message junk (tiles k)) tmp =
                      write_field_message junk (tiles k)).
      { rewrite <- (app_nil_r tmp).
        rewrite list_inserts_0_r by lia. apply app_nil_r. }
      rewrite Erecv.
      rewrite (int_mul_small k nxl) by (unfold is_int, INT_MIN, INT_MAX in *; nia).
      eexists _, _. split; [reflexivity|].
      split; [by rewrite length_memcpy|]. split; [done|].
      intros p i j Hp Hi Hj. destruct (Z.eq_dec p k) as [->|Hne].
      + rewrite memcpy_inside; unfold cell; rewrite ?Hfull, ?Hmlen; [|nia..].
        rewrite <- Hmsg by done. unfold cell. f_equal. nia.
      + rewrite memcpy_outside by (unfold cell; nia).
        apply Hdone; lia. }
  destruct G as (full & tmp & -> & Hfull & Htmp & Hall).
  by exists full.
Qed.

(** Every position of the buffer is a cell of some rank's interior. *)
Lemma buffer_position (k : nat) :
  (k < Z.to_nat (nxl * P * nyl))%nat ->
  exists p i j, 0 <= p < P /\ 0 <= i < nxl /\ 0 <= j < nyl /\
    k = cell nyl (p * nxl + i) j.
Proof.
  intros Hk.
  assert (Hy : 0 < nyl) by nia. assert (Hx : 0 < nxl) by nia.
  set (z := Z.of_nat k).
  exists (z / nyl / nxl), ((z / nyl) mod nxl), (z mod nyl).
  pose proof (Z.mod_pos_bound z nyl Hy).
  pose proof (Z.mod_pos_bound (z / nyl) nxl Hx).
  pose proof (Z.div_mod z nyl ltac:(lia)) as E1.
  pose proof (Z.div_mod (z / nyl) nxl ltac:(lia)) as E2.
  assert (0 <= z / nyl) by (apply Z.div_pos; lia).
  assert (z / nyl < nxl * P) by (apply Z.div_lt_upper_bound; nia).
  assert (0 <= z / nyl / nxl) by (apply Z.div_pos; lia).
  assert (z / nyl / nxl < P) by (apply Z.div_lt_upper_bound; nia).
  split; [lia|]. split; [lia|]. split; [lia|].
  unfold cell.
  replace (z / nyl / nxl * nxl + (z / nyl) mod nxl) with (z / nyl) by lia.
  replace (z / nyl * nyl + z mod nyl) with z by lia.
  unfold z. lia.
Qed.

(** X9: the buffer rank 0 hands to the encoder is made of interior cells
    only.  Neither the ghost cells of the tiles nor what the freshly
    allocated buffers held reaches it: tiles with the same interiors give the
    same call of [save_png], and the call returns normally. *)
Theorem write_field_interiors_only junk junk' tiles tiles' :
  uniform_tiles tiles -> uniform_tiles tiles' ->
  (forall p i j, 0 <= p < P -> 0 <= i < nxl -> 0 <= j < nyl ->
     get2 (nyl + 2) (data (tiles p)) (i + 1) (j + 1) =
     get2 (nyl + 2) (data (tiles' p)) (i + 1) (j + 1)) ->
  write_field junk tiles {| size := P; rank := 0 |} =
    write_field junk' tiles' {| size := P; rank := 0 |} /\
  exists png, write_field junk tiles {| size := P; rank := 0 |} = Done (Some png).
Proof.
  intros Hu Hu' Hsame.
  destruct (gathered_buffer junk tiles Hu) as (full & -> & Hlen & Hcells).
  destruct (gathered_buffer junk' tiles' Hu') as (full' & -> & Hlen' & Hcells').
  split; [|by eexists]. do 3 f_equal.
  apply (list_eq_same_length _ _ (Z.to_nat (nxl * P * nyl))); [done..|].
  intros k x y Hk Hx Hy.
  destruct (buffer_position k Hk) as (p & i & j & Hp & Hi & Hj & ->).
  apply list_lookup_total_correct in Hx, Hy.
  rewrite <- Hx, <- Hy, Hcells, Hcells' by done. by apply Hsame.
Qed.

End GatheredBuffer.

Lemma write_field_interiors_only_witness :
  write_field no_junk gather_tile {| size := 2; rank := 0 |} =
    write_field other_junk gather_tile_other_ghosts {| size := 2; rank := 0 |}.
Proof.
  assert (Hu : forall tiles, tiles = gather_tile \/ tiles = gather_tile_other_ghosts ->
                uniform_tiles_of 2 2 2 tiles).
  { intros tiles [-> | ->] p Hp; (split; [reflexivity|]); (split; [reflexivity|]).
    - unfold gather_tile; cbn [data]. by rewrite length_map, length_seqZ.
    - unfold gather_tile_other_ghosts; cbn [data]. by rewrite length_map, length_seqZ. }
  apply (write_field_interiors_only 2 2 2 ltac:(lia) ltac:(lia) ltac:(lia)
           ltac:(vm_compute; discriminate) ltac:(vm_compute; discriminate)
           no_junk other_junk gather_tile gather_tile_other_ghosts).
  - apply Hu. by left.
  - apply Hu. by right.
  - intros p i j Hp Hi Hj.
    assert (p = 0 \/ p = 1) as [-> | ->] by lia;
    assert (i = 0 \/ i = 1) as [-> | ->] by lia;
    assert (j = 0 \/ j = 1) as [-> | ->] by lia; reflexivity.
Defined.

(** ** More on the initial load *)

Section ReadValues.

Context (scan_lf : string -> option Z * string).

Lemma length_scan_values n fp : length (fst (scan_values scan_lf n fp)) = n.
Proof.
  revert fp. induction n as [|n IH]; intros fp; [done|].
  cbn [scan_values]. destruct (scan_lf fp) as [v fp1].
  specialize (IH fp1). destruct (scan_values scan_lf n fp1) as [vs fp2].
  cbn [fst length] in *. by rewrite IH.
Qed.

Lemma scan_values_add a b fp :
  scan_values scan_lf (a + b) fp =
    (fst (scan_values scan_lf a fp) ++
       fst (scan_values scan_lf b (snd (scan_values scan_lf a fp))),
     snd (scan_values scan_lf b (snd (scan_values scan_lf a fp)))).
Proof.
  revert fp. induction a as [|a IH]; intros fp.
  - cbn [Nat.add scan_values fst snd app]. by destruct (scan_values scan_lf b fp).
  - cbn [Nat.add scan_values]. destruct (scan_lf fp) as [v fp1].
    rewrite IH. destruct (scan_values scan_lf a fp1) as [vs fp2].
    cbn [fst snd]. done.
Qed.

Lemma length_store_values start vs buf :
  length (store_values start vs buf) = length buf.
Proof.
  revert start buf. induction vs as [|v vs IH]; intros start buf; [done|].
  cbn [store_values]. rewrite IH. destruct v; [apply length_insert|done].
Qed.

Lemma store_values_app start va vb buf :
  store_values start (va ++ vb) buf =
    store_values (start + length va) vb (store_values start va buf).
Proof.
  revert start buf. induction va as [|v va IH]; intros start buf.
  - cbn [app length store_values]. by rewrite Nat.add_0_r.
  - cbn [app length store_values]. rewrite IH. f_equal. lia.
Qed.

Lemma lookup_store_values start vs buf (k : nat) :
  (start + length vs <= length buf)%nat ->
  store_values start vs buf !!! k =
    if decide (start <= k < start + length vs)%nat
    then match vs !! (k - start)%nat with
         | Some (Some v) => v
         | _ => buf !!! k
         end
    else buf !!! k.
Proof.
  revert start buf. induction vs as [|v vs IH]; intros start buf Hlen.
  - cbn [store_values length]. case_decide; [lia|done].
  - cbn [store_values length] in *.
    rewrite IH by (destruct v; rewrite ?length_insert; lia).
    destruct (decide (k = start)) as [->|Hne].
    + rewrite Nat.sub_diag. cbn [lookup list_lookup].
      do 2 (case_decide; try lia).
      destruct v; [by rewrite list_lookup_total_insert_eq by lia|done].
    + assert (Hk : forall x, <[start:=x]> buf !!! k = buf !!! k)
        by (intros; by apply list_lookup_total_insert_ne).
      do 2 (case_decide; try lia).
      * replace (k - start)%nat with (S (k - S start)) by lia.
        cbn [lookup list_lookup].
        destruct (vs !! (k - S start)%nat) as [[x|]|]; destruct v; by rewrite ?Hk.
      * destruct v; by rewrite ?Hk.
Qed.

(** The inner loop of [read_values]: one row. *)
Lemma read_values_row cols i buf fp :
  0 <= cols -> 0 <= i ->
  for_loop 0 cols (fun '(full_data, fp) j =>
      match scan_lf fp with
      | (Some v, fp') => (set2 cols full_data i j v, fp')
      | (None, fp') => (full_data, fp')
      end) (buf, fp) =
    (store_values (Z.to_nat (i * cols))
       (fst (scan_values scan_lf (Z.to_nat cols) fp)) buf,
     snd (scan_values scan_lf (Z.to_nat cols) fp)).
Proof.
  intros Hc Hi.
  match goal with |- for_loop 0 cols ?b _ = _ => set (body := b) end.
  cut (for_loop 0 cols body (buf, fp) =
    (store_values (Z.to_nat (i * cols))
       (fst (scan_values scan_lf (Z.to_nat (cols - 0)) fp)) buf,
     snd (scan_values scan_lf (Z.to_nat (cols - 0)) fp))).
  { by rewrite Z.sub_0_r. }
  apply (for_loop_invariant (fun k st =>
    st = (store_values (Z.to_nat (i * cols))
            (fst (scan_values scan_lf (Z.to_nat (k - 0)) fp)) buf,
          snd (scan_values scan_lf (Z.to_nat (k - 0)) fp)))); [done|done|].
  intros k st Hk ->.
  replace (Z.to_nat (k + 1 - 0)) with (Z.to_nat (k - 0) + 1)%nat by lia.
  rewrite scan_values_add. cbn [fst snd].
  rewrite store_values_app, length_scan_values. unfold body.
  set (fpk := snd (scan_values scan_lf (Z.to_nat (k - 0)) fp)).
  cbn [scan_values]. destruct (scan_lf fpk) as [[v|] fp'];
    cbn [fst snd store_values]; [|done].
  f_equal. unfold set2, cell. f_equal. nia.
Qed.

(** The loops of [read_values] store the values in the order in which the
    text has them, row after row; a cell whose conversion fails keeps what
    it held. *)
Lemma read_values_stores rows cols buf fp :
  0 <= rows -> 0 <= cols ->
  read_values scan_lf rows cols fp buf =
    (store_values 0 (fst (scan_values scan_lf (Z.to_nat (rows * cols)) fp)) buf,
     snd (scan_values scan_lf (Z.to_nat (rows * cols)) fp)).
Proof.
  intros Hr Hc. unfold read_values.
  cut (for_loop 0 rows (fun st i =>
         for_loop 0 cols (fun '(full_data, fp) j =>
           match scan_lf fp with
           | (Some v, fp') => (set2 cols full_data i j v, fp')
           | (None, fp') => (full_data, fp')
           end) st) (buf, fp) =
    (store_values 0 (fst (scan_values scan_lf (Z.to_nat ((rows - 0) * cols)) fp)) buf,
     snd (scan_values scan_lf (Z.to_nat ((rows - 0) * cols)) fp))).
  { by rewrite Z.sub_0_r. }
  apply (for_loop_invariant (fun k st =>
    st = (store_values 0 (fst (scan_values scan_lf (Z.to_nat ((k - 0) * cols)) fp)) buf,
          snd (scan_values scan_lf (Z.to_nat ((k - 0) * cols)) fp)))); [done|done|].
  intros k st Hk ->. rewrite read_values_row by lia.
  replace (Z.to_nat ((k + 1 - 0) * cols))
    with (Z.to_nat ((k - 0) * cols) + Z.to_nat cols)%nat by nia.
  rewrite scan_values_add. cbn [fst snd].
  rewrite store_values_app, length_scan_values. do 2 f_equal. nia.
Qed.

End ReadValues.

(** X11: rank 0 stores the values in the order in which the text has them,
    row after row, [cols] to a row, and leaves the rest of the text to the
    next read.  The number of values is not checked: a cell whose conversion
    fails keeps the content the allocator left, and the loop goes on. *)
Theorem read_values_row_major scan_lf rows cols buf fp :
  0 <= rows -> 0 <= cols -> length buf = Z.to_nat (rows * cols) ->
  let scanned := scan_values scan_lf (Z.to_nat (rows * cols)) fp in
  let res := read_values scan_lf rows cols fp buf in
  snd res = snd scanned /\
  length (fst res) = length buf /\
  forall i j, 0 <= i < rows -> 0 <= j < cols ->
    get2 cols (fst res) i j =
      match fst scanned !! cell cols i j with
      | Some (Some v) => v
      | _ => get2 cols buf i j
      end.
Proof.
  intros Hr Hc Hlen. cbv zeta. rewrite read_values_stores by done.
  cbn [fst snd]. split; [done|]. split; [apply length_store_values|].
  intros i j Hi Hj. unfold get2.
  rewrite lookup_store_values by (rewrite length_scan_values; lia).
  rewrite length_scan_values, Nat.sub_0_r.
  case_decide as Hk; [done|]. unfold cell in Hk. nia.
Qed.

Lemma read_values_row_major_witness :
  fst (read_values sample_scan_lf 2 2 ("5 6" ++ newline ++ "x") [91; 92; 93; 94])
    = [5; 6; 93; 94].
Proof.
  destruct (read_values_row_major sample_scan_lf 2 2 [91; 92; 93; 94]
              ("5 6" ++ newline ++ "x")) as (_ & Hlen & Hcells);
    [lia|lia|reflexivity|].
  apply (list_eq_same_length _ _ 4); [reflexivity|exact Hlen|].
  intros k x y Hk Hx Hy.
  apply list_lookup_total_correct in Hx, Hy. subst x y.
  assert (k = cell 2 0 0 \/ k = cell 2 0 1 \/ k = cell 2 1 0 \/ k = cell 2 1 1)
    as [-> | [-> | [-> | ->]]] by (unfold cell; lia).
  - exact (Hcells 0 0 ltac:(lia) ltac:(lia)).
  - exact (Hcells 0 1 ltac:(lia) ltac:(lia)).
  - exact (Hcells 1 0 ltac:(lia) ltac:(lia)).
  - exact (Hcells 1 1 ltac:(lia) ltac:(lia)).
Defined.

Section Loaded.

Context (junk : nat -> Z) (scan_lf : string -> option Z * string).
Context (P rows cols : Z) (text body : string).

Hypothesis header :
  fscanf_header text =
    {| count := 2; nx_read := Some rows; ny_read := Some cols; rest := body |}.
Hypothesis P_pos : 0 < P.
Hypothesis rows_nonneg : 0 <= rows.
Hypothesis lrows_range : 1 <= Z.quot rows P <= INT_MAX - 2.
Hypothesis cols_range : 1 <= cols <= INT_MAX - 2.
Hypothesis cells_fit : Z.quot rows P * cols <= INT_MAX.

Local Abbreviation lrows := (Z.quot rows P).
Local Abbreviation grid :=
  (fst (read_values scan_lf rows cols body (malloc_2d junk rows cols))).

Lemma blocks_within_rows : P * lrows <= rows.
Proof.
  rewrite Z.quot_div_nonneg by lia. apply Z.mul_div_le. lia.
Qed.

Lemma length_grid : length grid = Z.to_nat (rows * cols).
Proof.
  rewrite read_values_stores by lia. cbn [fst].
  by rewrite length_store_values, length_malloc_2d.
Qed.

(** The tile of rank [r] after the load. *)
Lemma loaded_tile_spec r :
  0 <= r < P ->
  let t := loaded_tile junk scan_lf P text r in
  nx t = lrows /\ ny t = cols /\
  length (data t) = Z.to_nat ((lrows + 2) * (cols + 2)) /\
  forall i j, 0 <= i < lrows -> 0 <= j < cols ->
    get2 (cols + 2) (data t) (i + 1) (j + 1) = get2 cols grid (r * lrows + i) j.
Proof.
  intros Hr. cbv zeta. unfold loaded_tile.
  rewrite (read_field_unfold junk scan_lf _ _ P r text rows cols body header
             lrows_range cols_range).
  cbn [snd nx ny data].
  set (inner := MPI_Scatter _ _ _ _).
  destruct (fill_tile_spec lrows cols inner (malloc_2d junk (lrows + 2) (cols + 2)))
    as (Hlen & Hin & _); [done|done|apply length_malloc_2d| |].
  { unfold inner. by rewrite length_MPI_Scatter, length_malloc_2d. }
  split; [done|]. split; [done|]. split; [done|].
  intros i j Hi Hj. rewrite Hin by done.
  pose proof blocks_within_rows as Hb. pose proof length_grid as Hg.
  unfold inner, MPI_Scatter.
  rewrite int_mul_small by (unfold is_int, INT_MIN, INT_MAX in *; nia).
  destruct (Z.ltb_spec (lrows * cols) 0); [nia|].
  assert (Hseg : length (take (Z.to_nat (lrows * cols))
                   (drop (Z.to_nat (r * (lrows * cols))) grid)) =
                 Z.to_nat (lrows * cols)).
  { rewrite length_take, length_drop, Hg. nia. }
  rewrite list_lookup_total_inserts
    by (rewrite ?Hseg, ?length_malloc_2d; unfold cell; nia).
  rewrite lookup_total_take_lt by (unfold cell; nia).
  rewrite lookup_total_drop. unfold get2, cell. f_equal. nia.
Qed.

(** X12: the scatter gives every process its own block of rows.  The
    interior cell [(i, j)] of the tile of rank [r] is the cell of row
    [r*lrows + i] and column [j] of the grid rank 0 read. *)
Theorem read_field_delivers_row_block r t1 t2 :
  0 <= r < P ->
  exists T,
    read_field junk scan_lf t1 t2 P r (Some text) =
      ([Scatter_call (lrows * cols)], Done (T, T, {| size := P; rank := r |})) /\
    forall i j, 0 <= i < lrows -> 0 <= j < cols ->
      get2 (cols + 2) (data T) (i + 1) (j + 1) = get2 cols grid (r * lrows + i) j.
Proof.
  intros Hr.
  pose proof (read_field_unfold junk scan_lf t1 t2 P r text rows cols body header
                lrows_range cols_range) as E. cbv zeta in E.
  rewrite int_mul_small in E by (unfold is_int, INT_MIN, INT_MAX in *; nia).
  eexists. split; [exact E|]. cbn [data].
  destruct (loaded_tile_spec r Hr) as (_ & _ & _ & Hcells).
  unfold loaded_tile in Hcells.
  rewrite (read_field_unfold junk scan_lf _ _ P r text rows cols body header
             lrows_range cols_range) in Hcells.
  cbn [snd data] in Hcells.
  rewrite int_mul_small in Hcells by (unfold is_int, INT_MIN, INT_MAX in *; nia).
  exact Hcells.
Qed.

(** X13: load and snapshot compose to the identity.  When the rows divide
    evenly among the processes, the buffer that [write_field] assembles from
    the tiles [read_field] has just left on the processes is the grid rank 0
    read from the file, with its dimensions, whatever the freshly allocated
    buffers held. *)
Theorem load_then_gather junk' :
  rows = P * lrows -> rows <= INT_MAX ->
  write_field junk' (loaded_tile junk scan_lf P text) {| size := P; rank := 0 |} =
    Done (Some {| png_data := grid; png_height := rows; png_width := cols |}).
Proof.
  intros Hdiv Hrows.
  destruct (gathered_buffer P lrows cols ltac:(lia) ltac:(lia) ltac:(lia)
              ltac:(lia) cells_fit junk' (loaded_tile junk scan_lf P text))
    as (full & -> & Hlen & Hcells).
  { intros p Hp. destruct (loaded_tile_spec p Hp) as (Hx & Hy & Hl & _). done. }
  do 3 f_equal; [|lia].
  apply (list_eq_same_length _ _ (Z.to_nat (lrows * P * cols))); [|done|].
  { rewrite length_grid. f_equal. nia. }
  intros k x y Hk Hx Hy.
  destruct (buffer_position P lrows cols ltac:(lia) ltac:(lia) ltac:(lia) k Hk)
    as (p & i & j & Hp & Hi & Hj & ->).
  apply list_lookup_total_correct in Hx, Hy.
  rewrite <- Hx, <- Hy, Hcells by done.
  destruct (loaded_tile_spec p Hp) as (_ & _ & _ & Hload).
  by rewrite Hload.
Qed.

End Loaded.

Lemma grid_4_3_header :
  fscanf_header grid_4_3_text =
    {| count := 2; nx_read := Some 4; ny_read := Some 3;
       rest := rest (fscanf_header grid_4_3_text) |}.
Proof. reflexivity. Qed.

Lemma read_field_delivers_row_block_witness :
  exists T,
    read_field no_junk sample_scan_lf blank_field blank_field 2 1
        (Some grid_4_3_text) =
      ([Scatter_call 6], Done (T, T, {| size := 2; rank := 1 |})) /\
    get2 5 (data T) 1 1 = 7 /\ get2 5 (data T) 2 3 = 12.
Proof.
  destruct (read_field_delivers_row_block no_junk sample_scan_lf 2 4 3
              grid_4_3_text _ grid_4_3_header ltac:(lia) ltac:(lia)
              ltac:(vm_compute; split; discriminate)
              ltac:(vm_compute; split; discriminate)
              ltac:(vm_compute; discriminate) 1 blank_field blank_field ltac:(lia))
    as (T & E & Hcells).
  exists T. split; [exact E|]. split.
  - exact (Hcells 0 0 ltac:(vm_compute; split; [discriminate|reflexivity])
             ltac:(lia)).
  - exact (Hcells 1 2 ltac:(vm_compute; split; [discriminate|reflexivity])
             ltac:(lia)).
Defined.

Lemma load_then_gather_witness :
  write_field other_junk (loaded_tile no_junk sample_scan_lf 2 grid_4_3_text)
      {| size := 2; rank := 0 |} =
    Done (Some {| png_data := [1; 2; 3; 4; 5; 6; 7; 8; 9; 10; 11; 12];
                  png_height := 4; png_width := 3 |}).
Proof.
  exact (load_then_gather no_junk sample_scan_lf 2 4 3 grid_4_3_text _
           grid_4_3_header ltac:(lia) ltac:(lia)
           ltac:(vm_compute; split; discriminate)
           ltac:(vm_compute; split; discriminate)
           ltac:(vm_compute; discriminate) other_junk
           ltac:(reflexivity) ltac:(vm_compute; discriminate)).
Defined.

(** ** From the load to the checkpoint *)

Lemma Forall_list_inserts {A} (Q : A -> Prop) (i : nat) (k l : list A) :
  Forall Q k -> Forall Q l -> Forall Q (list_inserts i k l).
Proof.
  intros Hk. revert i. induction Hk as [|x k Hx _ IH]; intros i Hl; [done|].
  cbn [list_inserts]. apply Forall_insert; [by apply IH|done].
Qed.

Lemma is_double_lookup_total (l : list Z) (i : nat) :
  Forall is_double l -> is_double (l !!! i).
Proof.
  intros Hl. destruct (Nat.lt_ge_cases i (length l)) as [Hi|Hi].
  - by apply Forall_lookup_total_1.
  - rewrite list_lookup_total_alt, lookup_ge_None_2 by done.
    unfold is_double. cbn. lia.
Qed.

Section WellFormed.

Context (junk : nat -> Z) (scan_lf : string -> option Z * string).

Hypothesis junk_double : forall i, is_double (junk i).
Hypothesis scan_double : forall s v s', scan_lf s = (Some v, s') -> is_double v.

Lemma Forall_malloc_2d h w : Forall is_double (malloc_2d junk h w).
Proof. unfold malloc_2d. apply Forall_map, Forall_forall. intros; apply junk_double. Qed.

Lemma Forall_memcpy dst doff src soff n :
  Forall is_double dst -> Forall is_double src ->
  Forall is_double (memcpy dst doff src soff n).
Proof.
  intros Hd Hs. unfold memcpy. apply Forall_list_inserts; [|done].
  by apply Forall_take, Forall_drop.
Qed.

Lemma Forall_set2_get2 w a i j i' j' :
  Forall is_double a -> Forall is_double (set2 w a i j (get2 w a i' j')).
Proof.
  intros Ha. unfold set2, get2. apply Forall_insert; [done|].
  by apply is_double_lookup_total.
Qed.

Lemma Forall_fill_tile n cols inner tile0 :
  0 <= n -> 0 <= cols ->
  int_add n 1 = n + 1 -> int_add cols 2 = cols + 2 ->
  Forall is_double inner -> Forall is_double tile0 ->
  Forall is_double (fill_tile n cols inner tile0).
Proof.
  intros Hn Hc En Ec Hi Ht. unfold fill_tile. rewrite En, Ec.
  apply (for_loop_invariant (fun _ t => Forall is_double t)); [lia| |].
  - apply (for_loop_invariant (fun _ t => Forall is_double t)); [lia| |].
    + apply (for_loop_invariant (fun _ t => Forall is_double t)); [lia|done|].
      intros i t _ Hd. by apply Forall_memcpy.
    + intros i t _ Hd. cbv zeta. by do 2 apply Forall_set2_get2.
  - intros j t _ Hd. cbv zeta. by do 2 apply Forall_set2_get2.
Qed.

Lemma Forall_read_values rows cols fp buf :
  0 <= rows -> 0 <= cols -> Forall is_double buf ->
  Forall is_double (fst (read_values scan_lf rows cols fp buf)).
Proof.
  intros Hr Hc Hb. unfold read_values.
  apply (for_loop_invariant (fun _ st => Forall is_double (fst st)));
    [lia|done|].
  intros i st _ Hst.
  apply (for_loop_invariant (fun _ st => Forall is_double (fst st)));
    [lia|done|].
  intros j [full fp'] _ Hfull. cbn [fst] in Hfull.
  destruct (scan_lf fp') as [[v|] fp''] eqn:E; cbn [fst]; [|done].
  apply Forall_insert; [done|]. by apply (scan_double _ _ _ E).
Qed.

(** X14: where the allocator and the conversion [%lf] yield doubles, the tile
    [read_field] leaves on a process is the tile [write_restart] expects:
    the dimensions are those of the even split of the grid, the block has
    [(nx+2)*(ny+2)] cells, and every cell, ghost cells included, is a
    double. *)
Theorem loaded_tile_well_formed P r text rows cols body :
  fscanf_header text =
    {| count := 2; nx_read := Some rows; ny_read := Some cols; rest := body |} ->
  0 <= rows -> 1 <= Z.quot rows P <= INT_MAX - 2 -> 1 <= cols <= INT_MAX - 2 ->
  tile_ok P rows cols (loaded_tile junk scan_lf P text r).
Proof.
  intros Hh Hrows Hn Hc. unfold loaded_tile.
  rewrite (read_field_unfold junk scan_lf _ _ P r text rows cols body Hh Hn Hc).
  cbn [snd]. unfold tile_ok. cbn [nx ny nx_full ny_full data].
  set (inner := MPI_Scatter _ _ _ _).
  assert (Hinner : Forall is_double inner).
  { unfold inner, MPI_Scatter. destruct (_ <? 0); [apply Forall_malloc_2d|].
    apply Forall_list_inserts; [|apply Forall_malloc_2d].
    apply Forall_take, Forall_drop, Forall_read_values; [lia..|].
    apply Forall_malloc_2d. }
  split_and!; try done.
  - destruct (fill_tile_spec (Z.quot rows P) cols inner
                (malloc_2d junk (Z.quot rows P + 2) (cols + 2)))
      as [Hlen _]; [done|done|apply length_malloc_2d| |done].
    unfold inner. by rewrite length_MPI_Scatter, length_malloc_2d.
  - apply Forall_fill_tile; [lia|lia| | |done|apply Forall_malloc_2d];
      apply int_add_small; unfold is_int, INT_MIN, INT_MAX in *; lia.
Qed.

End WellFormed.

Lemma sample_scan_double_range s v s' :
  sample_scan_double s = (Some v, s') -> is_double v.
Proof.
  unfold sample_scan_double. destruct (sample_scan_lf s) as [[x|] r]; [|done].
  intros [= <- _]. unfold is_double. apply Z.mod_pos_bound. lia.
Qed.

Lemma loaded_tile_well_formed_witness :
  tile_ok 2 4 3 (loaded_tile no_junk sample_scan_double 2 grid_4_3_text 1).
Proof.
  apply (loaded_tile_well_formed no_junk sample_scan_double) with
    (body := rest (fscanf_header grid_4_3_text)).
  - intros i. unfold no_junk, is_double. lia.
  - exact sample_scan_double_range.
  - reflexivity.
  - lia.
  - vm_compute. split; discriminate.
  - vm_compute. split; discriminate.
Defined.

(** X15: the header has to begin at the first character of the file.  On an
    empty file, and on a file whose first character is not [#] (a blank or an
    empty line before the header is enough), the scan assigns nothing and
    [read_field] aborts with code -1 before any collective call. *)
Theorem read_field_header_starts_file junk scan_lf t1 t2 P r text :
  (text = EmptyString \/ exists c s, text = String c s /\ c <> "#"%char) ->
  read_field junk scan_lf t1 t2 P r (Some text) = ([], Aborted (-1)).
Proof.
  intros Hcase.
  assert (Hc : count (fscanf_header text) < 2).
  { destruct Hcase as [->|(c & s & -> & Hne)]; [reflexivity|].
    unfold fscanf_header. apply Ascii.eqb_neq in Hne. by rewrite Hne. }
  unfold read_field, fopen.
  by destruct (Z.ltb_spec (count (fscanf_header text)) 2); [|lia].
Qed.

Lemma read_field_header_starts_file_witness :
  read_field no_junk sample_scan_lf blank_field blank_field 2 0
      (Some (" # 2 2" ++ newline ++ "1 2 3 4")%string) = ([], Aborted (-1)).
Proof.
  apply read_field_header_starts_file. right.
  eexists _, _. split; [reflexivity|discriminate].
Defined.

(** ** Sample runs of the checkpoint properties *)






